(** * Orchestrator of multi-agent workflows (pro_orchestrator.py)

    A shallow embedding of [Orchestrator]: input resolution
    ([_resolve_input]), the invocation adapter ([_call_agent]), the
    step executor with its retry loop ([_run_step]) and the job driver
    ([_execute_workflow]), followed by the properties of the
    specification that concern them.

    Conventions of the embedding.
    - Python values are JSON-like data: [None], booleans, integers,
      strings (ASCII), lists and insertion-ordered dictionaries whose
      keys are hashable atoms.  Floating point numbers occur in the
      source only as clock readings and sleep delays; they are exact
      rationals here and live in typed record fields.
    - The job dictionary built by [start_workflow] has a fixed set of
      keys and is a record; its ["result"] entries and the values that
      come from agents or from the submitted workflow stay dynamic
      values, with the failures of [.get], [int(...)], [dict(...)] and
      indexing on the wrong shape written out.
    - Coroutines run in a small monad threading the job object, a
      clock, the trace of agent invocations and the trace of sleeps;
      a computation returns, raises, or never returns.
    - Formatted log messages are kept as the fields that feed the
      f-string. *)

From Stdlib Require Import ZArith QArith String Ascii List Bool Lia DecimalString.
Import ListNotations.

Local Close Scope Q_scope.
Local Open Scope string_scope.
Local Open Scope list_scope.
Local Set Warnings "-register-all".

(** ** Python values *)

(** Hashable atoms, the keys of dictionaries. *)
Inductive key : Type :=
| KNone
| KBool (b : bool)
| KInt (z : Z)
| KStr (s : string).

Inductive value : Type :=
| VNone
| VBool (b : bool)
| VInt (z : Z)
| VStr (s : string)
| VList (l : list value)
| VDict (d : list (key * value)).

(** Exceptions: the class name, whether the class derives from
    [Exception] (as opposed to [BaseException] only, such as
    [KeyboardInterrupt] or [SystemExit]), [str(e)] and the text that
    [traceback.format_exc()] renders for it. *)
Record exn : Type := MkExn {
  exn_class : string;
  exn_is_Exception : bool;
  exn_msg : string;
  exn_tb : string
}.

Definition AttributeError (m : string) : exn := MkExn "AttributeError" true m "".
Definition TypeError (m : string) : exn := MkExn "TypeError" true m "".
Definition ValueError (m : string) : exn := MkExn "ValueError" true m "".
Definition IndexError (m : string) : exn := MkExn "IndexError" true m "".

(** Pure but fallible expressions: [inl e] raises [e]. *)
Definition fallible (A : Type) : Type := (exn + A)%type.

Definition fbind {A B : Type} (c : fallible A) (k : A -> fallible B) : fallible B :=
  match c with
  | inl e => inl e
  | inr a => k a
  end.

Notation "'try!' x <- c ; k" := (fbind c (fun x => k))
  (at level 10, x name, c at level 100, k at level 200).

(** Python equality on hashable atoms: [True == 1] and [False == 0]. *)
Definition key_norm (k : key) : key :=
  match k with
  | KBool true => KInt 1
  | KBool false => KInt 0
  | _ => k
  end.

Definition key_eqb (a b : key) : bool :=
  match key_norm a, key_norm b with
  | KNone, KNone => true
  | KInt x, KInt y => Z.eqb x y
  | KStr s, KStr t => String.eqb s t
  | _, _ => false
  end.

(** [hash(v)]: lists and dictionaries are unhashable. *)
Definition hashable (v : value) : fallible key :=
  match v with
  | VNone => inr KNone
  | VBool b => inr (KBool b)
  | VInt z => inr (KInt z)
  | VStr s => inr (KStr s)
  | VList _ => inl (TypeError "unhashable type: 'list'")
  | VDict _ => inl (TypeError "unhashable type: 'dict'")
  end.

Definition key_value (k : key) : value :=
  match k with
  | KNone => VNone
  | KBool b => VBool b
  | KInt z => VInt z
  | KStr s => VStr s
  end.

(** ** Dictionaries, insertion ordered *)

Section Dict.
Context {V : Type}.

Fixpoint dict_get (d : list (key * V)) (k : key) : option V :=
  match d with
  | [] => None
  | (k', v) :: rest => if key_eqb k' k then Some v else dict_get rest k
  end.

(** [d[k] = v]: an existing key keeps its position. *)
Fixpoint dict_set (d : list (key * V)) (k : key) (v : V) : list (key * V) :=
  match d with
  | [] => [(k, v)]
  | (k', v') :: rest =>
      if key_eqb k' k then (k', v) :: rest else (k', v') :: dict_set rest k v
  end.

Definition dict_values (d : list (key * V)) : list V := map snd d.
End Dict.

(** [d.get(k, default)] on a dictionary. *)
Definition dict_get_default (d : list (key * value)) (k : string) (default : value) : value :=
  match dict_get d (KStr k) with
  | Some v => v
  | None => default
  end.

(** [v.get(k, default)] on any value: only dictionaries have [.get]. *)
Definition py_get (v : value) (k : string) (default : value) : fallible value :=
  match v with
  | VDict d => inr (dict_get_default d k default)
  | VNone => inl (AttributeError "'NoneType' object has no attribute 'get'")
  | VBool _ => inl (AttributeError "'bool' object has no attribute 'get'")
  | VInt _ => inl (AttributeError "'int' object has no attribute 'get'")
  | VStr _ => inl (AttributeError "'str' object has no attribute 'get'")
  | VList _ => inl (AttributeError "'list' object has no attribute 'get'")
  end.

Definition is_dict (v : value) : bool :=
  match v with
  | VDict _ => true
  | _ => false
  end.

(** Truth value testing. *)
Definition py_truthy (v : value) : bool :=
  match v with
  | VNone => false
  | VBool b => b
  | VInt z => negb (Z.eqb z 0)
  | VStr s => negb (String.eqb s "")
  | VList l => match l with [] => false | _ => true end
  | VDict d => match d with [] => false | _ => true end
  end.

(** [a or b]. *)
Definition py_or (a b : value) : value := if py_truthy a then a else b.

(** [v == "..."] against a string literal. *)
Definition py_eq_str (v : value) (s : string) : bool :=
  match v with
  | VStr t => String.eqb t s
  | _ => false
  end.

(** ** Strings *)

(** [s.split(".")]. *)
Fixpoint split_dot (s : string) : list string :=
  match s with
  | EmptyString => [""]
  | String c rest =>
      if Ascii.eqb c "."%char then "" :: split_dot rest
      else match split_dot rest with
           | hd :: tl => String c hd :: tl
           | [] => [String c ""]
           end
  end.

(** [v.startswith(p)]: a method of strings only. *)
Definition py_startswith (v : value) (p : string) : fallible bool :=
  match v with
  | VStr s => inr (prefix p s)
  | _ => inl (AttributeError "object has no attribute 'startswith'")
  end.

Definition is_space (c : ascii) : bool :=
  let n := nat_of_ascii c in
  (((9 <=? n) && (n <=? 13)) || ((28 <=? n) && (n <=? 32)))%nat.

Fixpoint lstrip (s : string) : string :=
  match s with
  | String c rest => if is_space c then lstrip rest else s
  | EmptyString => EmptyString
  end.

(** Drops trailing white space. *)
Fixpoint rstrip (s : string) : string :=
  match s with
  | EmptyString => EmptyString
  | String c rest =>
      match rstrip rest with
      | EmptyString => if is_space c then EmptyString else String c EmptyString
      | r => String c r
      end
  end.

Definition digit_of (c : ascii) : option Z :=
  let n := nat_of_ascii c in
  if ((48 <=? n) && (n <=? 57))%nat then Some (Z.of_nat (n - 48)) else None.

(** Digits of a decimal literal after its first digit; a single
    underscore may separate two digits. *)
Fixpoint parse_digits (acc : Z) (s : string) : option Z :=
  match s with
  | EmptyString => Some acc
  | String c rest =>
      if Ascii.eqb c "_"%char then
        match rest with
        | String c' rest' =>
            match digit_of c' with
            | Some d => parse_digits (10 * acc + d)%Z rest'
            | None => None
            end
        | EmptyString => None
        end
      else
        match digit_of c with
        | Some d => parse_digits (10 * acc + d)%Z rest
        | None => None
        end
  end.

Definition parse_unsigned (s : string) : option Z :=
  match s with
  | String c rest =>
      match digit_of c with
      | Some d => parse_digits d rest
      | None => None
      end
  | EmptyString => None
  end.

(** [int(s)] for a string, base ten: surrounding white space, one
    optional sign, digits.  (The interpreter's configurable limit on
    the number of digits is left out.) *)
Definition int_of_string (s : string) : option Z :=
  match rstrip (lstrip s) with
  | String "-" rest => option_map Z.opp (parse_unsigned rest)
  | String "+" rest => parse_unsigned rest
  | t => parse_unsigned t
  end.

(** [int(v)]. *)
Definition py_int (v : value) : fallible Z :=
  match v with
  | VBool b => inr (if b then 1%Z else 0%Z)
  | VInt z => inr z
  | VStr s =>
      match int_of_string s with
      | Some z => inr z
      | None => inl (ValueError "invalid literal for int() with base 10")
      end
  | VNone => inl (TypeError "int() argument must be a string, a bytes-like object or a real number, not 'NoneType'")
  | VList _ => inl (TypeError "int() argument must be a string, a bytes-like object or a real number, not 'list'")
  | VDict _ => inl (TypeError "int() argument must be a string, a bytes-like object or a real number, not 'dict'")
  end.

(** [str(v)] of an atom, as an f-string renders it. *)
Definition key_str (k : key) : string :=
  match k with
  | KNone => "None"
  | KBool true => "True"
  | KBool false => "False"
  | KInt z => NilZero.string_of_int (Z.to_int z)
  | KStr s => s
  end.

Definition str_of_nat (n : nat) : string := NilZero.string_of_uint (Nat.to_uint n).

(** ** Sequences *)

(** [l[i]] with Python's negative indices. *)
Definition py_index {A : Type} (l : list A) (i : Z) : fallible A :=
  let n := Z.of_nat (length l) in
  let j := if (i <? 0)%Z then (i + n)%Z else i in
  if ((0 <=? j) && (j <? n))%Z then
    match nth_error l (Z.to_nat j) with
    | Some x => inr x
    | None => inl (IndexError "list index out of range")
    end
  else inl (IndexError "list index out of range").

Fixpoint chars (s : string) : list value :=
  match s with
  | EmptyString => []
  | String c rest => VStr (String c EmptyString) :: chars rest
  end.

(** [iter(v)]: the elements of a list, the characters of a string, the
    keys of a dictionary. *)
Definition py_iter (v : value) : fallible (list value) :=
  match v with
  | VList l => inr l
  | VStr s => inr (chars s)
  | VDict d => inr (map (fun kv => key_value (fst kv)) d)
  | VNone => inl (TypeError "'NoneType' object is not iterable")
  | VBool _ => inl (TypeError "'bool' object is not iterable")
  | VInt _ => inl (TypeError "'int' object is not iterable")
  end.

(** [dict(v)]: a shallow copy of a mapping, or the dictionary of a
    sequence of two-element sequences. *)
Fixpoint dict_of_pairs (acc : list (key * value)) (items : list value) : fallible (list (key * value)) :=
  match items with
  | [] => inr acc
  | item :: rest =>
      try! kv <- py_iter item;
      match kv with
      | [k; v] =>
          try! k' <- hashable k;
          dict_of_pairs (dict_set acc k' v) rest
      | _ => inl (ValueError "dictionary update sequence element has length other than 2")
      end
  end.

Definition py_dict (v : value) : fallible (list (key * value)) :=
  match v with
  | VDict d => inr d
  | _ => try! items <- py_iter v; dict_of_pairs [] items
  end.

(** [timeout] handed to [asyncio.wait_for]: a number of seconds. *)
Definition py_number (v : value) : fallible Q :=
  match v with
  | VBool b => inr (if b then 1%Q else 0%Q)
  | VInt z => inr (inject_Z z)
  | _ => inl (TypeError "unsupported operand type(s) for timeout")
  end.

(** ** The job record *)

(** The f-strings of the log, as the fields they format. *)
Inductive log_msg : Type :=
| Starting (name agent_name : value) (attempt : nat)
| Finished (name : value) (attempt : nat) (status : value)
| AttemptFailed (name : value) (attempt : nat) (detail : value)
| WorkflowFailedAt (idx : nat) (name : value)
| WorkflowCompleted.

Record log_entry : Type := MkLog {
  ts : Q;
  level : string;
  msg : log_msg
}.

Record step_entry : Type := MkStepEntry {
  e_name : value;
  e_agent : value;
  e_attempt : nat;
  e_ts_start : Q;
  e_ts_end : Q;
  e_duration : Q;
  e_result : value
}.

Record Job : Type := MkJob {
  j_id : value;
  j_status : string;
  j_submitted_at : Q;
  j_payload : value;
  j_logs : list log_entry;
  j_agent_history : list step_entry;
  j_result : list value;
  j_finished_at : option Q
}.

(** ** Agents *)

(** What one call of an agent's entry point does: return a value or
    raise after [dt] seconds, or never complete. *)
Inductive behaviour : Type :=
| Returns (dt : Q) (v : value)
| Raises (dt : Q) (e : exn)
| Never.

(** An entry point, applied to the number of agent calls made before
    this one and to the payload. *)
Definition callable : Type := nat -> value -> behaviour.

(** A method is a coroutine function ([async def]) or a plain one. *)
Inductive method : Type :=
| Coroutine (f : callable)
| Plain (f : callable).

Record agent : Type := MkAgent {
  arun : option method;
  run : option method
}.

(** ** The state the coroutines run in *)

Record world : Type := MkWorld {
  agents : list (key * agent);
  job : Job;
  clock : Q;
  calls : list (key * value);
  sleeps : list Q
}.

Inductive outcome (A : Type) : Type :=
| Ok (a : A) (w : world)
| Exc (e : exn) (w : world)
| Hang (w : world).

Arguments Ok {A} a w.
Arguments Exc {A} e w.
Arguments Hang {A} w.

Definition M (A : Type) : Type := world -> outcome A.

Definition ret {A : Type} (a : A) : M A := fun w => Ok a w.

Definition bind {A B : Type} (c : M A) (k : A -> M B) : M B :=
  fun w =>
    match c w with
    | Ok a w' => k a w'
    | Exc e w' => Exc e w'
    | Hang w' => Hang w'
    end.

Notation "x <- c ;; k" := (bind c (fun x => k))
  (at level 61, c at next level, right associativity).
Notation "c ;;; k" := (bind c (fun _ => k))
  (at level 61, right associativity).

Definition lift {A : Type} (c : fallible A) : M A :=
  fun w =>
    match c with
    | inl e => Exc e w
    | inr a => Ok a w
    end.

Definition this_job : M Job := fun w => Ok (job w) w.

Definition set_job (f : Job -> Job) : M unit :=
  fun w => Ok tt (MkWorld (agents w) (f (job w)) (clock w) (calls w) (sleeps w)).

(** [now_ts()]. *)
Definition now_ts : M Q := fun w => Ok (clock w) w.

Definition tick (d : Q) (w : world) : world :=
  MkWorld (agents w) (job w) (clock w + d)%Q (calls w) (sleeps w).

(** [await asyncio.sleep(d)]. *)
Definition sleep (d : Q) : M unit :=
  fun w => Ok tt (MkWorld (agents w) (job w) (clock w + d)%Q (calls w) (sleeps w ++ [d])).

(** [job["logs"].append(...)]. *)
Definition log (t : Q) (lvl : string) (m : log_msg) : M unit :=
  set_job (fun j =>
    MkJob (j_id j) (j_status j) (j_submitted_at j) (j_payload j)
          (j_logs j ++ [MkLog t lvl m]) (j_agent_history j) (j_result j) (j_finished_at j)).

(** [job["agent_history"].append(entry)]. *)
Definition append_history (e : step_entry) : M unit :=
  set_job (fun j =>
    MkJob (j_id j) (j_status j) (j_submitted_at j) (j_payload j)
          (j_logs j) (j_agent_history j ++ [e]) (j_result j) (j_finished_at j)).

(** [job["result"].append(r)]. *)
Definition append_result (r : value) : M unit :=
  set_job (fun j =>
    MkJob (j_id j) (j_status j) (j_submitted_at j) (j_payload j)
          (j_logs j) (j_agent_history j) (j_result j ++ [r]) (j_finished_at j)).

(** [job["status"] = s; job["finished_at"] = now_ts()]. *)
Definition finish (s : string) : M unit :=
  fun w =>
    let j := job w in
    Ok tt (MkWorld (agents w)
             (MkJob (j_id j) s (j_submitted_at j) (j_payload j)
                    (j_logs j) (j_agent_history j) (j_result j) (Some (clock w)))
             (clock w) (calls w) (sleeps w)).

(** ** Orchestrator._resolve_input *)

(** The loop over [rest]: [val = val.get(p)] on a dictionary, [None]
    on anything else. *)
Definition walk_step (val : value) (p : string) : value :=
  match val with
  | VDict d => dict_get_default d p VNone
  | _ => VNone
  end.

Definition walk (val : value) (rest : list string) : value :=
  fold_left walk_step rest val.

Definition nth_str (parts : list string) (n : nat) : string := nth n parts "".

(** The body of the [try] block: [Some payload] is the [return base]
    inside it, [None] falls through to the [return base] after it. *)
Definition resolve_try (base : list (key * value)) (input_path : value) (j : Job)
  : fallible (option (list (key * value))) :=
  try! starts <- py_startswith input_path "previous.";
  if starts then
    match input_path with
    | VStr path =>
        let parts := split_dot path in
        if (5 <=? length parts)%nat && String.eqb (nth_str parts 1) "steps"
           && String.eqb (nth_str parts 3) "data" then
          try! idx <- py_int (VStr (nth_str parts 2));
          let rest := skipn 4 parts in
          try! prev_result <-
            (if (idx <? Z.of_nat (length (j_result j)))%Z
             then py_index (j_result j) idx
             else inr VNone);
          if py_truthy prev_result then
            try! data <- py_get prev_result "data" VNone;
            let val := walk (py_or data (VDict [])) rest in
            inr (Some (dict_set base (KStr "_from_previous") val))
          else inr None
        else inr None
    | _ => inr None
    end
  else inr None.

Definition _resolve_input (step : value) (j : Job) : fallible (list (key * value)) :=
  try! inp <- py_get step "input" VNone;
  try! base <- py_dict (py_or inp (VDict []));
  try! input_path <- py_get step "input_path" VNone;
  if negb (py_truthy input_path) then inr base
  else
    match resolve_try base input_path j with
    | inr (Some payload) => inr payload
    | inr None => inr base
    | inl e => if exn_is_Exception e then inr base else inl e
    end.

(** ** Orchestrator._call_agent *)

Definition failed_result (err : string) : value :=
  VDict [(KStr "status", VStr "failed"); (KStr "error", VStr err)].

Definition raised_result (e : exn) : value :=
  VDict [(KStr "status", VStr "failed"); (KStr "error", VStr (exn_msg e));
         (KStr "traceback", VStr (exn_tb e))].

Definition not_registered (k : key) : value :=
  failed_result ("agent '" ++ key_str k ++ "' not registered").

(** The entry point [_invoke] selects: [arun] when it is a coroutine
    function, else [run], awaited directly or through the executor. *)
Definition dispatch (a : agent) : option callable :=
  match arun a with
  | Some (Coroutine f) => Some f
  | _ =>
      match run a with
      | Some (Coroutine f) => Some f
      | Some (Plain f) => Some f
      | None => None
      end
  end.

(** What awaiting [_invoke()] yields and after how long: a value, an
    exception that is not an [Exception], or nothing ever. *)
Inductive invocation : Type :=
| Completes (dt : Q) (r : fallible value)
| Pending.

Definition _invoke (a : agent) (n : nat) (payload : value) : invocation :=
  match dispatch a with
  | Some f =>
      match f n payload with
      | Returns dt v => Completes dt (inr v)
      | Raises dt e =>
          if exn_is_Exception e then Completes dt (inr (raised_result e))
          else Completes dt (inl e)
      | Never => Pending
      end
  | None => Completes 0 (inr (failed_result "agent has no run/arun method"))
  end.

(** The world once [_invoke] has run for [d] seconds: the clock moved
    and, when an entry point was called, the call recorded. *)
Definition invoked (a : agent) (k : key) (payload : value) (d : Q) (w : world) : world :=
  MkWorld (agents w) (job w) (clock w + d)%Q
          (match dispatch a with
           | Some _ => calls w ++ [(k, payload)]
           | None => calls w
           end)
          (sleeps w).

(** With a timeout, an invocation that takes no longer than the
    timeout completes; a longer one, or one that never completes, is
    cancelled when the timeout has elapsed. *)
Definition _call_agent (agent_name payload timeout : value) : M value :=
  fun w =>
    match hashable agent_name with
    | inl e => Exc e w
    | inr k =>
        match dict_get (agents w) k with
        | None => Ok (not_registered k) w
        | Some a =>
            if py_truthy timeout then
              match py_number timeout with
              | inl e => Exc e w
              | inr t =>
                  match _invoke a (length (calls w)) payload with
                  | Completes dt (inr v) =>
                      if Qle_bool dt t then Ok v (invoked a k payload dt w)
                      else Ok (failed_result "timeout") (invoked a k payload t w)
                  | Completes dt (inl e) =>
                      if Qle_bool dt t then Exc e (invoked a k payload dt w)
                      else Ok (failed_result "timeout") (invoked a k payload t w)
                  | Pending => Ok (failed_result "timeout") (invoked a k payload t w)
                  end
              end
            else
              match _invoke a (length (calls w)) payload with
              | Completes dt (inr v) => Ok v (invoked a k payload dt w)
              | Completes dt (inl e) => Exc e (invoked a k payload dt w)
              | Pending => Hang (invoked a k payload 0 w)
              end
        end
    end.

(** ** Orchestrator._run_step *)

(** [0.5 * (2 ** (attempt - 1))], a power of two and so the same
    number as a float and as a rational. *)
Definition backoff (attempt : nat) : Q :=
  ((1 # 2) * inject_Z (2 ^ (Z.of_nat attempt - 1)))%Q.

(** The text after "failed:" in the warning. *)
Definition error_detail (result : value) : value :=
  match result with
  | VDict d => dict_get_default d "error" VNone
  | _ => result
  end.

(** [result.get("status")] of a dictionary. *)
Definition status_of (result : value) : value :=
  match result with
  | VDict d => dict_get_default d "status" VNone
  | _ => VNone
  end.

(** [result.get("data", result)] of a dictionary. *)
Definition data_of (result : value) : value :=
  match result with
  | VDict d => dict_get_default d "data" result
  | _ => result
  end.

(** [isinstance(result, dict) and result.get("status") == "success"]. *)
Definition is_success (result : value) : bool :=
  is_dict result && py_eq_str (status_of result) "success".

(** The [while attempt < retries] loop, [remaining] being
    [retries - attempt]. *)
Fixpoint attempts (step name agent_name timeout : value)
    (remaining attempt : nat) (last_err : value) : M value :=
  match remaining with
  | O => ret (VDict [(KStr "status", VStr "failed"); (KStr "error", last_err)])
  | S remaining' =>
      let attempt := S attempt in
      ts_start <- now_ts ;;
      log ts_start "info" (Starting name agent_name attempt) ;;;
      j <- this_job ;;
      resolved_payload <- lift (_resolve_input step j) ;;
      result <- _call_agent agent_name (VDict resolved_payload) timeout ;;
      ts_end <- now_ts ;;
      append_history
        (MkStepEntry name agent_name attempt ts_start ts_end (ts_end - ts_start)%Q result) ;;;
      reported <- lift (py_get result "status" (VStr "unknown")) ;;
      t <- now_ts ;;
      log t "info" (Finished name attempt reported) ;;;
      if is_success result then
        ret (VDict [(KStr "status", VStr "success");
                    (KStr "data", data_of result)])
      else
        t' <- now_ts ;;
        log t' "warning" (AttemptFailed name attempt (error_detail result)) ;;;
        sleep (backoff attempt) ;;;
        attempts step name agent_name timeout remaining' attempt result
  end.

Definition _run_step (step_idx : nat) (step : value) : M value :=
  n <- lift (py_get step "name" VNone) ;;
  let name := py_or n (VStr ("step_" ++ str_of_nat step_idx)) in
  agent_name <- lift (py_get step "agent" VNone) ;;
  r <- lift (py_get step "retry" (VInt 1)) ;;
  retries <- lift (py_int r) ;;
  timeout <- lift (py_get step "timeout" VNone) ;;
  attempts step name agent_name timeout (Z.to_nat retries) 0 VNone.

(** ** Orchestrator._execute_workflow *)

(** The [for idx, step in enumerate(steps)] loop and what follows it. *)
Fixpoint run_steps (idx : nat) (steps : list value) : M unit :=
  match steps with
  | [] =>
      finish "finished" ;;;
      t <- now_ts ;;
      log t "info" WorkflowCompleted
  | step :: rest =>
      step_resp <- _run_step idx step ;;
      st <- lift (py_get step_resp "status" VNone) ;;
      data <- lift (py_get step_resp "data" VNone) ;;
      append_result (VDict [(KStr "status", st); (KStr "data", data)]) ;;;
      if negb (py_eq_str st "success") then
        finish "failed" ;;;
        t <- now_ts ;;
        nm <- lift (py_get step "name" VNone) ;;
        log t "error" (WorkflowFailedAt idx nm)
      else run_steps (S idx) rest
  end.

(** The body of [_execute_workflow] once the job object is at hand. *)
Definition execute_job : M unit :=
  j <- this_job ;;
  steps <- lift (py_get (j_payload j) "steps" (VList [])) ;;
  l <- lift (py_iter steps) ;;
  run_steps 0 l.

(** The orchestrator object with the ambient clock and traces. *)
Record Orchestrator : Type := MkOrchestrator {
  self_agents : list (key * agent);
  self_jobs : list (key * Job);
  self_clock : Q;
  self_calls : list (key * value);
  self_sleeps : list Q
}.

(** [register_agent]. *)
Definition register_agent (name : key) (a : agent) (self : Orchestrator) : Orchestrator :=
  MkOrchestrator (dict_set (self_agents self) name a) (self_jobs self)
                 (self_clock self) (self_calls self) (self_sleeps self).

Definition get_job (self : Orchestrator) (job_id : key) : option Job :=
  dict_get (self_jobs self) job_id.

Definition list_jobs (self : Orchestrator) : list Job := dict_values (self_jobs self).

(** How the background task of a job ends. *)
Inductive ending : Type :=
| Returned
| Raised (e : exn)
| Hung.

Definition store (self : Orchestrator) (job_id : key) (w : world) : Orchestrator :=
  MkOrchestrator (agents w) (dict_set (self_jobs self) job_id (job w))
                 (clock w) (calls w) (sleeps w).

(** The job object is shared with the registry: what the task did to
    it is visible there however the task ends. *)
Definition _execute_workflow (job_id : key) (self : Orchestrator) : ending * Orchestrator :=
  match dict_get (self_jobs self) job_id with
  | None => (Returned, self)
  | Some j =>
      let w := MkWorld (self_agents self) j (self_clock self)
                       (self_calls self) (self_sleeps self) in
      match execute_job w with
      | Ok _ w' => (Returned, store self job_id w')
      | Exc e w' => (Raised e, store self job_id w')
      | Hang w' => (Hung, store self job_id w')
      end
  end.

(** The job dictionary [start_workflow] builds. *)
Definition new_job (job_id : value) (now : Q) (payload : value) : Job :=
  MkJob job_id "running" now payload [] [] [] None.

(** [start_workflow], up to the creation of the background task;
    [uuid] is the identifier [uuid.uuid4()] draws. *)
Definition start_workflow (payload : value) (uuid : string) (self : Orchestrator)
  : fallible (Job * Orchestrator) :=
  try! given <- py_get payload "id" VNone;
  let job_id := py_or given (VStr uuid) in
  let j := new_job job_id (self_clock self) payload in
  try! k <- hashable job_id;
  inr (j, MkOrchestrator (self_agents self) (dict_set (self_jobs self) k j)
                         (self_clock self) (self_calls self) (self_sleeps self)).

(** ** Vocabulary of the statements *)

(** Fields of a step dictionary as [_run_step] reads them. *)
Definition step_agent (d : list (key * value)) : value :=
  dict_get_default d "agent" VNone.

Definition step_timeout (d : list (key * value)) : value :=
  dict_get_default d "timeout" VNone.

Definition step_name (idx : nat) (d : list (key * value)) : value :=
  py_or (dict_get_default d "name" VNone) (VStr ("step_" ++ str_of_nat idx)).

(** The step's [input] converts to a dictionary. *)
Definition input_converts (d : list (key * value)) : Prop :=
  exists base, py_dict (py_or (dict_get_default d "input" VNone) (VDict [])) = inr base.

(** [int(step.get("retry", 1))] is [r]. *)
Definition retry_is (d : list (key * value)) (r : Z) : Prop :=
  py_int (dict_get_default d "retry" (VInt 1)) = inr r.

(** Whatever the payload and the moment, the adapter answers the
    step's invocation with a dictionary that satisfies [P]. *)
Definition answers (P : list (key * value) -> Prop) (ags : list (key * agent))
    (d : list (key * value)) : Prop :=
  forall payload w, agents w = ags ->
    exists r w', _call_agent (step_agent d) payload (step_timeout d) w = Ok (VDict r) w' /\ P r.

Definition always_succeeds (ags : list (key * agent)) (d : list (key * value)) : Prop :=
  answers (fun r => is_success (VDict r) = true) ags d.


(** What a run of attempts [attempt + 1 .. attempt + n] of one step
    leaves in the job: [es] are the history entries it appended. *)
Definition attempted (name agent_name : value) (attempt n : nat)
    (es : list step_entry) (w w' : world) : Prop :=
  agents w' = agents w /\
  j_status (job w') = j_status (job w) /\
  j_result (job w') = j_result (job w) /\
  j_agent_history (job w') = j_agent_history (job w) ++ es /\
  map e_attempt es = seq (S attempt) n /\
  Forall (fun e => e_name e = name /\ e_agent e = agent_name) es.

(** The world a computation leaves behind. *)
Definition exec {A : Type} (c : M A) (w : world) : world :=
  match c w with
  | Ok _ w' | Exc _ w' | Hang w' => w'
  end.

(** [result.get('status', 'unknown')] of a dictionary. *)
Definition reported_status (d : list (key * value)) : value :=
  dict_get_default d "status" (VStr "unknown").

(** After the "Starting" line. *)
Definition started (name agent_name : value) (attempt : nat) (w : world) : world :=
  exec (log (clock w) "info" (Starting name agent_name attempt)) w.

(** After the history entry and the "Finished" line; [t0] is [ts_start]. *)
Definition recorded (name agent_name : value) (attempt : nat) (t0 : Q)
    (d : list (key * value)) (w : world) : world :=
  exec (append_history
          (MkStepEntry name agent_name attempt t0 (clock w) (clock w - t0)%Q (VDict d)) ;;;
        log (clock w) "info" (Finished name attempt (reported_status d))) w.

(** After the warning and the sleep that follow a failed attempt. *)
Definition backed_off (name : value) (attempt : nat) (d : list (key * value))
    (w : world) : world :=
  exec (log (clock w) "warning" (AttemptFailed name attempt (error_detail (VDict d))) ;;;
        sleep (backoff attempt)) w.

(** What the driver keeps of a successful step outcome. *)
Definition success_entry (data : value) : value :=
  VDict [(KStr "status", VStr "success"); (KStr "data", data)].

(** The steps [pre], numbered from [idx], each ran to a successful
    outcome and had it appended to the results, taking [w] to [w']. *)
Inductive prefix_done : nat -> list value -> world -> world -> Prop :=
| done_nil idx w : prefix_done idx [] w w
| done_cons idx step rest w data w1 w' :
    _run_step idx step w = Ok (success_entry data) w1 ->
    prefix_done (S idx) rest (exec (append_result (success_entry data)) w1) w' ->
    prefix_done idx (step :: rest) w w'.

(** A step dictionary with a positive retry count whose invocations
    all succeed. *)
Definition succeeding_step (ags : list (key * agent)) (step : value) : Prop :=
  exists d r, step = VDict d /\ input_converts d /\ retry_is d r /\ (1 <= r)%Z /\
              always_succeeds ags d.

(** History entry [e] is the first attempt of [step]. *)
Definition first_attempt_of (step : value) (e : step_entry) : Prop :=
  exists d, step = VDict d /\ e_agent e = step_agent d /\ e_attempt e = 1%nat.

(** ** Sample agents and workflows *)

Module Sample.
(** A synchronous agent answering every call with [v] after one second. *)
Definition constant (v : value) : agent :=
  MkAgent None (Some (Plain (fun _ _ => Returns 1 v))).

Definition page : value :=
  VDict [(KStr "status", VStr "success");
         (KStr "data", VDict [(KStr "html", VStr "<p>hi</p>")])].

Definition refusal : value :=
  VDict [(KStr "status", VStr "failed"); (KStr "error", VStr "no results")].

(** Returns its payload as data. *)
Definition echo : agent :=
  MkAgent None
    (Some (Plain (fun _ p =>
       Returns 1 (VDict [(KStr "status", VStr "success"); (KStr "data", p)])))).

Definition browse : list (key * value) :=
  [(KStr "agent", VStr "browser"); (KStr "retry", VInt 1)].

Definition extract : list (key * value) :=
  [(KStr "agent", VStr "extractor");
   (KStr "input_path", VStr "previous.steps.0.data.html"); (KStr "retry", VInt 1)].

Definition summarize (k : Z) : list (key * value) :=
  [(KStr "name", VStr "summarize"); (KStr "agent", VStr "summarizer");
   (KStr "retry", VInt k)].

Definition report : list (key * value) :=
  [(KStr "agent", VStr "reporter")].

(** Answers with a bare string instead of a dictionary. *)
Definition broken : agent := constant (VStr "oops").

(** Succeeds, but only after five seconds. *)
Definition slow : agent :=
  MkAgent (Some (Coroutine (fun _ _ => Returns 5 page))) None.

(** Raises [ValueError("bad input")] at once. *)
Definition faulty : agent :=
  MkAgent None
    (Some (Plain (fun _ _ =>
       Raises 0 (MkExn "ValueError" true "bad input" "Traceback (most recent call last): ...")))).

Definition registry : list (key * agent) :=
  [(KStr "browser", constant page); (KStr "extractor", echo);
   (KStr "summarizer", constant refusal); (KStr "reporter", echo);
   (KStr "broken", broken); (KStr "slow", slow); (KStr "faulty", faulty)].

Definition idle : world :=
  MkWorld registry (new_job (VStr "job-1") 0 (VDict [])) 0 [] [].

Definition submit (steps : list value) : Orchestrator :=
  match start_workflow (VDict [(KStr "id", VStr "job-1"); (KStr "steps", VList steps)])
                       "generated" (MkOrchestrator registry [] 0 [] []) with
  | inr (_, self) => self
  | inl _ => MkOrchestrator registry [] 0 [] []
  end.

Definition submitted (steps : list value) : Job :=
  new_job (VStr "job-1") 0
          (VDict [(KStr "id", VStr "job-1"); (KStr "steps", VList steps)]).

End Sample.

(** [timeout] is unset, or a number of seconds within which an
    invocation taking [dt] seconds completes. *)
Definition within (timeout : value) (dt : Q) : bool :=
  negb (py_truthy timeout) ||
  match py_number timeout with
  | inr t => Qle_bool dt t
  | inl _ => false
  end.


(** The specification's reading of a dotted field path: each field
    is looked up in a mapping, and the lookup fails ([None]) when the
    value at hand is not a mapping or lacks the key. *)
Fixpoint spec_lookup (v : value) (fields : list string) : option value :=
  match fields with
  | [] => Some v
  | f :: fs =>
      match v with
      | VDict d =>
          match dict_get d (KStr f) with
          | Some v' => spec_lookup v' fs
          | None => None
          end
      | _ => None
      end
  end.

(** What the adapter leaves alone: the agents, the job, the sleeps. *)
Definition same_but_clock_calls (w w' : world) : Prop :=
  agents w' = agents w /\ job w' = job w /\ sleeps w' = sleeps w.

(** What the executor never touches: the agents, the results, the status. *)
Definition untouched (w w' : world) : Prop :=
  agents w' = agents w /\
  j_result (job w') = j_result (job w) /\
  j_status (job w') = j_status (job w).

(** The world the background task of job [j] starts in. *)
Definition task_world (self : Orchestrator) (j : Job) : world :=
  MkWorld (self_agents self) j (self_clock self) (self_calls self) (self_sleeps self).

(** ** Vocabulary of the general invariants *)

(** The world an outcome ends in. *)
Definition world_of {A : Type} (o : outcome A) : world :=
  match o with
  | Ok _ w | Exc _ w | Hang w => w
  end.

(** After the history entry of an attempt, before the "Finished" line. *)
Definition entered (name agent_name : value) (attempt : nat) (t0 : Q)
    (result : value) (w : world) : world :=
  exec (append_history
          (MkStepEntry name agent_name attempt t0 (clock w) (clock w - t0)%Q result)) w.

(** Job [j'] is job [j] with [ls], [es] and [rs] appended to its log,
    history and results; identifier, payload and submission time are
    the same. *)
Definition job_grows (j j' : Job) (ls : list log_entry) (es : list step_entry)
    (rs : list value) : Prop :=
  j_id j' = j_id j /\ j_submitted_at j' = j_submitted_at j /\
  j_payload j' = j_payload j /\
  j_logs j' = j_logs j ++ ls /\
  j_agent_history j' = j_agent_history j ++ es /\
  j_result j' = j_result j ++ rs.

(** The entry the driver appends for a step that failed. *)
Definition failed_entry : value :=
  VDict [(KStr "status", VStr "failed"); (KStr "data", VNone)].

Definition is_success_entry (r : value) : Prop :=
  exists data, r = success_entry data.

(** What any run of the retry loop from attempt [attempt + 1] with
    [remaining] attempts left does to the world, however it ends. *)
Definition attempts_trace (name agent_name : value) (attempt remaining : nat)
    (w : world) (o : outcome value) : Prop :=
  exists ls es cs zs,
    job_grows (job w) (job (world_of o)) ls es [] /\
    j_status (job (world_of o)) = j_status (job w) /\
    j_finished_at (job (world_of o)) = j_finished_at (job w) /\
    agents (world_of o) = agents w /\
    calls (world_of o) = calls w ++ cs /\ (length cs <= remaining)%nat /\
    sleeps (world_of o) = sleeps w ++ zs /\
    map e_attempt es = seq (S attempt) (length es) /\
    (length es <= remaining)%nat /\
    Forall (fun e => e_name e = name /\ e_agent e = agent_name) es /\
    match o with
    | Ok resp _ =>
        (exists data, resp = success_entry data /\ es <> []) \/
        (exists err, resp = VDict [(KStr "status", VStr "failed"); (KStr "error", err)] /\
                     length es = remaining)
    | _ => True
    end.

(** What any run of the driver over [steps] does to the world,
    however it ends. *)
Definition run_trace (steps : list value) (w : world) (o : outcome unit) : Prop :=
  exists ls es rs,
    job_grows (job w) (job (world_of o)) ls es rs /\
    agents (world_of o) = agents w /\
    match o with
    | Ok _ w' =>
        j_finished_at (job w') <> None /\
        ((j_status (job w') = "finished" /\ length rs = length steps /\
          Forall is_success_entry rs) \/
         (j_status (job w') = "failed" /\ (length rs <= length steps)%nat /\
          exists ss, rs = ss ++ [failed_entry] /\ Forall is_success_entry ss))
    | Exc _ w' | Hang w' =>
        j_status (job w') = j_status (job w) /\
        j_finished_at (job w') = j_finished_at (job w) /\
        (length rs < length steps)%nat /\ Forall is_success_entry rs
    end.

(** The steps the driver iterates over, when the payload has them. *)
Definition steps_of (j : Job) : fallible (list value) :=
  try! steps <- py_get (j_payload j) "steps" (VList []);
  py_iter steps.


(** * The synchronous workflow manager (workflow_manager.py, routes.py)

    [WorkflowManager.start_workflow] runs the steps of a workflow one
    after the other in the caller's thread.  The agent class the
    module registers under "browser" is not part of the sources at
    hand: an agent is any entry point [run], as for the orchestrator,
    and the registry is a field of the manager. *)

Module WorkflowManager.

(** The two shapes of a log line, [{"ts", "info"}] and [{"ts", "error"}],
    with the fields their f-strings format. *)
Inductive message : Type :=
| StartingStep (number : nat) (agent_name : value)
| AgentNotFound (agent_name : value)
| StepResult (number : nat) (status : value)
| Failure (text : string).

Record log_line : Type := MkLine {
  l_ts : Q;
  l_kind : string;
  l_message : message
}.

(** The job dictionary; ["result"] is [None] until the workflow finishes. *)
Record Job : Type := MkJob {
  id : string;
  status : string;
  payload : value;
  logs : list log_line;
  result : option (list value)
}.

Record Manager : Type := MkManager {
  jobs : list (key * Job);
  _agents : list (key * callable);
  clock : Q;
  calls : list (key * value)
}.

(** The job under way and the ambient clock and call trace. *)
Record running : Type := MkRunning {
  r_job : Job;
  r_clock : Q;
  r_calls : list (key * value)
}.

Definition append_log (kind : string) (m : message) (r : running) : running :=
  let j := r_job r in
  MkRunning (MkJob (id j) (status j) (payload j)
                   (logs j ++ [MkLine (r_clock r) kind m]) (result j))
            (r_clock r) (r_calls r).

Definition set_status (s : string) (r : running) : running :=
  let j := r_job r in
  MkRunning (MkJob (id j) s (payload j) (logs j) (result j)) (r_clock r) (r_calls r).

Definition set_result (rs : list value) (r : running) : running :=
  let j := r_job r in
  MkRunning (MkJob (id j) (status j) (payload j) (logs j) (Some rs)) (r_clock r) (r_calls r).

(** The agent was called with [inp] and took [dt] seconds. *)
Definition called (k : key) (inp : value) (dt : Q) (r : running) : running :=
  MkRunning (r_job r) (r_clock r + dt)%Q (r_calls r ++ [(k, inp)]).

(** How the [for] loop ends: exhausted (its [else] clause runs),
    left by [break], left by an exception, or stuck in an agent. *)
Inductive loop_end : Type :=
| Exhausted (step_results : list value)
| Broken
| Thrown (e : exn)
| Blocked.

(** The loop body from step [i] (numbered [i + 1] in the log) on. *)
Fixpoint loop (agents : list (key * callable)) (i : nat) (steps : list value)
    (step_results : list value) (r : running) : loop_end * running :=
  match steps with
  | [] => (Exhausted step_results, r)
  | step :: rest =>
      match py_get step "agent" VNone with
      | inl e => (Thrown e, r)
      | inr agent_name =>
          match py_get step "input" (VDict []) with
          | inl e => (Thrown e, r)
          | inr inp =>
              let r1 := append_log "info" (StartingStep (i + 1) agent_name) r in
              match hashable agent_name with
              | inl e => (Thrown e, r1)
              | inr k =>
                  match dict_get agents k with
                  | None =>
                      (Broken,
                       set_status "failed" (append_log "error" (AgentNotFound agent_name) r1))
                  | Some run =>
                      match run (length (r_calls r1)) inp with
                      | Returns dt res =>
                          let r2 := called k inp dt r1 in
                          match py_get res "status" VNone with
                          | inl e => (Thrown e, r2)
                          | inr st =>
                              loop agents (S i) rest (step_results ++ [res])
                                   (append_log "info" (StepResult (i + 1) st) r2)
                          end
                      | Raises dt e => (Thrown e, called k inp dt r1)
                      | Never => (Blocked, called k inp 0 r1)
                      end
                  end
              end
          end
      end
  end.

(** The body of the [try] block. *)
Definition attempt (agents : list (key * callable)) (r : running) : loop_end * running :=
  match py_get (payload (r_job r)) "workflow" (VList []) with
  | inl e => (Thrown e, r)
  | inr steps =>
      match py_iter steps with
      | inl e => (Thrown e, r)
      | inr l => loop agents 0 l [] r
      end
  end.

(** How a call of [start_workflow] ends. *)
Inductive ending : Type :=
| Returns_job (j : Job)
| Propagates (e : exn)
| Never_returns.

Definition store (self : Manager) (r : running) : Manager :=
  MkManager (dict_set (jobs self) (KStr (id (r_job r))) (r_job r)) (_agents self)
            (r_clock r) (r_calls r).

(** [uuid] is the identifier [uuid.uuid4()] draws.  The job built
    first is registered before the [try] block and shared with the
    registry afterwards. *)
Definition start_workflow (payload : value) (uuid : string) (self : Manager)
  : ending * Manager :=
  let r0 := MkRunning (MkJob uuid "running" payload [] None) (clock self) (calls self) in
  match attempt (_agents self) r0 with
  | (Exhausted step_results, r) =>
      let r' := set_result step_results (set_status "finished" r) in
      (Returns_job (r_job r'), store self r')
  | (Broken, r) => (Returns_job (r_job r), store self r)
  | (Thrown e, r) =>
      if exn_is_Exception e then
        let r' := append_log "error" (Failure (exn_msg e)) (set_status "failed" r) in
        (Returns_job (r_job r'), store self r')
      else (Propagates e, store self r)
  | (Blocked, r) => (Never_returns, store self r)
  end.

Definition get_job (self : Manager) (job_id : string) : option Job :=
  dict_get (jobs self) (KStr job_id).

(** routes.py: the body of POST /run-workflow, when the manager returns. *)
Definition run_workflow (payload : value) (uuid : string) (self : Manager)
  : option (list (string * string)) * Manager :=
  match start_workflow payload uuid self with
  | (Returns_job j, self') => (Some [("job_id", id j); ("status", "started")], self')
  | (_, self') => (None, self')
  end.

(** routes.py: GET /job/{job_id}; [inl 404] is the HTTPException. *)
Definition route_get_job (self : Manager) (job_id : string) : (nat + Job)%type :=
  match get_job self job_id with
  | Some j => inr j
  | None => inl 404%nat
  end.

End WorkflowManager.

(** ** Vocabulary for the manager *)

(** A step dictionary naming a registered agent that answers every
    call with a dictionary. *)
Definition answered_step (agents : list (key * callable)) (step : value) : Prop :=
  exists d k run,
    step = VDict d /\ hashable (dict_get_default d "agent" VNone) = inr k /\
    dict_get agents k = Some run /\
    forall n inp, exists dt res, run n inp = Returns dt (VDict res).

(** [res] is what the agent of [step] returned to some call. *)
Definition returned_for (agents : list (key * callable)) (step res : value) : Prop :=
  exists d k run n inp dt,
    step = VDict d /\ hashable (dict_get_default d "agent" VNone) = inr k /\
    dict_get agents k = Some run /\ run n inp = Returns dt res.

(** What the loop does to the job under way, however it ends. *)
Definition loop_trace (steps : list value) (step_results : list value)
    (r : WorkflowManager.running) (o : WorkflowManager.loop_end * WorkflowManager.running)
  : Prop :=
  let j := WorkflowManager.r_job r in
  let j' := WorkflowManager.r_job (snd o) in
  WorkflowManager.id j' = WorkflowManager.id j /\
  WorkflowManager.payload j' = WorkflowManager.payload j /\
  WorkflowManager.result j' = WorkflowManager.result j /\
  (exists ls, WorkflowManager.logs j' = WorkflowManager.logs j ++ ls) /\
  (exists cs, WorkflowManager.r_calls (snd o) = WorkflowManager.r_calls r ++ cs /\
              (length cs <= length steps)%nat) /\
  match fst o with
  | WorkflowManager.Exhausted rs =>
      WorkflowManager.status j' = WorkflowManager.status j /\
      exists new, rs = step_results ++ new /\ length new = length steps
  | WorkflowManager.Broken => WorkflowManager.status j' = "failed"
  | WorkflowManager.Thrown _ | WorkflowManager.Blocked =>
      WorkflowManager.status j' = WorkflowManager.status j
  end.

(** * Text cleaning of the extractor agent (extractor_agent.py)

    A Python string is here the sequence of bytes of its UTF-8
    encoding: a code point outside ASCII is a run of bytes of value
    128 or more, which contains no space and no newline. *)

Module ExtractorAgent.

(** [re.sub(c+, c, s)] for a single character [c]: every run of [c]
    becomes one [c]. *)
Fixpoint squeeze (c : ascii) (s : string) : string :=
  match s with
  | EmptyString => EmptyString
  | String a rest =>
      if Ascii.eqb a c then
        match rest with
        | String b _ => if Ascii.eqb b c then squeeze c rest else String a (squeeze c rest)
        | EmptyString => String a EmptyString
        end
      else String a (squeeze c rest)
  end.

Definition is_ascii (a : ascii) : bool := (nat_of_ascii a <? 128)%nat.

(** [s.encode("ascii", "ignore").decode("ascii")]. *)
Fixpoint ascii_only (s : string) : string :=
  match s with
  | EmptyString => EmptyString
  | String a rest => if is_ascii a then String a (ascii_only rest) else ascii_only rest
  end.

(** [s.strip()]. *)
Definition strip (s : string) : string := rstrip (lstrip s).

Definition space : ascii := " "%char.
Definition newline : ascii := "010"%char.

Definition clean_text (text : string) : string :=
  let text := squeeze space text in
  let text := squeeze newline text in
  let text := ascii_only text in
  strip text.

End ExtractorAgent.

(** ** Vocabulary for strings *)

(** Every character of [s] satisfies [p]. *)
Fixpoint every (p : ascii -> bool) (s : string) : bool :=
  match s with
  | EmptyString => true
  | String a rest => p a && every p rest
  end.

Definition starts_with (c : ascii) (s : string) : bool :=
  match s with
  | String a _ => Ascii.eqb a c
  | EmptyString => false
  end.

(** [c] occurs twice in a row in [s]. *)
Fixpoint doubled (c : ascii) (s : string) : bool :=
  match s with
  | EmptyString => false
  | String a rest => (Ascii.eqb a c && starts_with c rest) || doubled c rest
  end.

(** [s] does not begin with white space. *)
Definition clean_head (s : string) : bool :=
  match s with
  | String a _ => negb (is_space a)
  | EmptyString => true
  end.


(** * Properties *)

(** ** Dictionaries *)

Lemma key_eqb_refl (k : key) : key_eqb k k = true.
Proof.
  destruct k as [ | [ | ] | z | s ]; unfold key_eqb; simpl;
    auto using Z.eqb_refl, String.eqb_refl.
Qed.

Lemma dict_get_set_same {V : Type} (d : list (key * V)) (k : key) (v : V) :
  dict_get (dict_set d k v) k = Some v.
Proof.
  induction d as [ | [k' v'] d IH ]; simpl.
  - now rewrite key_eqb_refl.
  - destruct (key_eqb k' k) eqn:E; simpl; rewrite E; auto.
Qed.

(** ** Input resolution *)

(** Everything the [try] block can raise is caught by [except Exception]. *)
Lemma resolve_try_raises_Exception base input_path j e :
  resolve_try base input_path j = inl e -> exn_is_Exception e = true.
Proof.
  unfold resolve_try, py_startswith.
  destruct input_path as [ | b | z | path | l | d ]; simpl;
    try (intros H; injection H as <-; reflexivity).
  destruct (prefix "previous." path); [ | discriminate ].
  destruct (_ && _); [ | discriminate ].
  unfold py_int. destruct (int_of_string _) as [idx | ]; simpl;
    [ | intros H; injection H as <-; reflexivity ].
  destruct (idx <? _)%Z; simpl.
  - unfold py_index.
    destruct (_ && _)%Z; simpl; [ | intros H; injection H as <-; reflexivity ].
    destruct (nth_error _ _) as [prev | ]; simpl;
      [ | intros H; injection H as <-; reflexivity ].
    destruct (py_truthy prev); [ | discriminate ].
    destruct prev; simpl; try discriminate;
      intros H; injection H as <-; reflexivity.
  - discriminate.
Qed.

(** A step whose [input] converts to a dictionary: resolution returns. *)
Lemma resolve_input_returns d base j :
  py_dict (py_or (dict_get_default d "input" VNone) (VDict [])) = inr base ->
  exists payload, _resolve_input (VDict d) j = inr payload.
Proof.
  intros Hb. unfold _resolve_input. simpl. rewrite Hb. simpl.
  destruct (negb _); [eauto | ].
  destruct (resolve_try _ _ _) as [e | [p | ]] eqn:E; eauto.
  rewrite (resolve_try_raises_Exception _ _ _ _ E). eauto.
Qed.

(** ** The adapter leaves the job, the agents and the sleeps alone *)

Lemma call_agent_frame agent_name payload timeout w :
  match _call_agent agent_name payload timeout w with
  | Ok _ w' | Exc _ w' | Hang w' => same_but_clock_calls w w'
  end.
Proof.
  unfold _call_agent, same_but_clock_calls.
  destruct (hashable agent_name) as [e | k]; [auto | ].
  destruct (dict_get (agents w) k) as [a | ]; [ | auto ].
  destruct (py_truthy timeout).
  - destruct (py_number timeout) as [e | t]; [auto | ].
    destruct (_invoke _ _ _) as [dt [e | v] | ]; try destruct (Qle_bool dt t);
      simpl; auto.
  - destruct (_invoke _ _ _) as [dt [e | v] | ]; simpl; auto.
Qed.

Lemma call_agent_ok_frame agent_name payload timeout w r w' :
  _call_agent agent_name payload timeout w = Ok r w' -> same_but_clock_calls w w'.
Proof.
  intros H. pose proof (call_agent_frame agent_name payload timeout w) as F.
  now rewrite H in F.
Qed.

(** ** One pass through the retry loop *)

Lemma attempts_pass step name agent_name timeout remaining attempt last_err w payload d w2 :
  _resolve_input step (job w) = inr payload ->
  _call_agent agent_name (VDict payload) timeout (started name agent_name (S attempt) w)
    = Ok (VDict d) w2 ->
  attempts step name agent_name timeout (S remaining) attempt last_err w =
    let w3 := recorded name agent_name (S attempt) (clock w) d w2 in
    if is_success (VDict d)
    then Ok (VDict [(KStr "status", VStr "success"); (KStr "data", data_of (VDict d))]) w3
    else attempts step name agent_name timeout remaining (S attempt) (VDict d)
           (backed_off name (S attempt) d w3).
Proof.
  intros Hres Hcall.
  unfold started, exec in Hcall. simpl in Hcall.
  unfold attempts; fold attempts.
  unfold bind at 1. unfold now_ts at 1.
  unfold bind at 1. unfold log at 1, set_job at 1.
  unfold bind at 1. unfold this_job at 1. simpl job.
  unfold bind at 1.
  replace (_resolve_input step _) with (@inr exn _ payload).
  unfold lift at 1.
  unfold bind at 1. rewrite Hcall.
  destruct (is_success (VDict d)); reflexivity.
Qed.

(** ** A step whose every attempt fails *)



Section Failing.
Variable ags : list (key * agent).
Variable d : list (key * value).
Variable name : value.
Variable P : list (key * value) -> Prop.
Hypothesis Hinput : input_converts d.
Hypothesis Hanswers : answers P ags d.
Hypothesis Hfailure : forall r, P r -> is_success (VDict r) = false.

End Failing.

(** ** The step executor *)

Lemma run_step_attempts idx d r w :
  retry_is d r ->
  _run_step idx (VDict d) w =
    attempts (VDict d) (step_name idx d) (step_agent d) (step_timeout d)
             (Z.to_nat r) 0 VNone w.
Proof.
  intros Hr. unfold _run_step, bind, lift. simpl py_get. cbv iota beta.
  unfold retry_is in Hr. rewrite Hr. reflexivity.
Qed.

Lemma untouched_refl w : untouched w w.
Proof. repeat split. Qed.

Lemma untouched_trans w1 w2 w3 : untouched w1 w2 -> untouched w2 w3 -> untouched w1 w3.
Proof. unfold untouched. intros (A & B & C) (A' & B' & C'). repeat split; congruence. Qed.

Lemma attempts_frame step name agent_name timeout remaining :
  forall attempt last_err w,
    match attempts step name agent_name timeout remaining attempt last_err w with
    | Ok _ w' | Exc _ w' | Hang w' => untouched w w'
    end.
Proof.
  induction remaining as [ | remaining IH ]; intros attempt last_err w.
  - apply untouched_refl.
  - unfold attempts; fold attempts.
    unfold bind at 1. unfold now_ts at 1.
    unfold bind at 1. unfold log at 1, set_job at 1.
    unfold bind at 1. unfold this_job at 1.
    unfold bind at 1. unfold lift at 1.
    destruct (_resolve_input step _) as [e | payload]; [repeat split | ].
    unfold bind at 1.
    match goal with |- context [_call_agent ?a ?p ?t ?w0] =>
      pose proof (call_agent_frame a p t w0) as F;
      destruct (_call_agent a p t w0) as [result w2 | e w2 | w2]
    end; destruct F as (Fa & Fj & Fs); simpl in Fa, Fj;
      try (unfold untouched; rewrite Fa, Fj; repeat split).
    unfold bind at 1. unfold now_ts at 1.
    unfold bind at 1. unfold append_history at 1, set_job at 1.
    unfold bind at 1. unfold lift at 1.
    destruct (py_get result "status" (VStr "unknown")) as [e | reported];
      [unfold untouched; simpl; rewrite Fa, Fj; repeat split | ].
    unfold bind at 1. unfold now_ts at 1.
    unfold bind at 1. unfold log at 1, set_job at 1.
    destruct (is_success result).
    + unfold ret, untouched. simpl. rewrite Fa, Fj. repeat split.
    + unfold bind at 1. unfold now_ts at 1.
      unfold bind at 1. unfold log at 1, set_job at 1.
      unfold bind at 1. unfold sleep at 1.
      match goal with |- context [attempts _ _ _ _ remaining ?a ?l ?w0] =>
        pose proof (IH a l w0) as G;
        destruct (attempts step name agent_name timeout remaining a l w0)
      end; (eapply untouched_trans; [ | exact G ]);
        unfold untouched; simpl; rewrite Fa, Fj; repeat split.
Qed.

Lemma run_step_frame idx step w :
  match _run_step idx step w with
  | Ok _ w' | Exc _ w' | Hang w' => untouched w w'
  end.
Proof.
  unfold _run_step.
  unfold bind at 1. unfold lift at 1.
  destruct (py_get step "name" VNone); [apply untouched_refl | ].
  unfold bind at 1. unfold lift at 1.
  destruct (py_get step "agent" VNone); [apply untouched_refl | ].
  unfold bind at 1. unfold lift at 1.
  destruct (py_get step "retry" (VInt 1)); [apply untouched_refl | ].
  unfold bind at 1. unfold lift at 1.
  destruct (py_int _); [apply untouched_refl | ].
  unfold bind at 1. unfold lift at 1.
  destruct (py_get step "timeout" VNone); [apply untouched_refl | ].
  apply attempts_frame.
Qed.

(** A step whose invocations all succeed returns after one attempt,
    without sleeping. *)
Lemma run_step_first_success ags idx d r w :
  agents w = ags ->
  input_converts d -> retry_is d r -> (1 <= r)%Z -> always_succeeds ags d ->
  exists data e w',
    _run_step idx (VDict d) w = Ok (success_entry data) w' /\
    attempted (step_name idx d) (step_agent d) 0 1 [e] w w' /\
    sleeps w' = sleeps w.
Proof.
  intros Hags [base Hbase] Hr Hpos Hok.
  rewrite (run_step_attempts _ _ _ _ Hr).
  destruct (Z.to_nat r) as [ | n ] eqn:En; [lia | ].
  destruct (resolve_input_returns d base (job w) Hbase) as [payload Hres].
  destruct (Hok (VDict payload) (started (step_name idx d) (step_agent d) 1 w) Hags)
    as (res & w2 & Hcall & Hs).
  rewrite (attempts_pass _ _ _ _ _ _ _ _ _ _ _ Hres Hcall). cbv zeta. rewrite Hs.
  destruct (call_agent_ok_frame _ _ _ _ _ _ Hcall) as (Ha & Hj & Hsl).
  eexists _, _, _. split; [reflexivity | split ].
  - unfold attempted, recorded, started, exec in *. simpl in *.
    rewrite Hj, Ha. simpl. repeat split; auto.
  - unfold recorded, exec. simpl. exact Hsl.
Qed.

(** ** The driver *)

Lemma run_steps_success_step idx step rest data w w1 :
  _run_step idx step w = Ok (success_entry data) w1 ->
  run_steps idx (step :: rest) w =
    run_steps (S idx) rest (exec (append_result (success_entry data)) w1).
Proof.
  intros H. unfold run_steps; fold run_steps.
  unfold bind at 1. rewrite H. reflexivity.
Qed.

Lemma run_steps_after_prefix idx pre rest w w1 :
  prefix_done idx pre w w1 ->
  run_steps idx (pre ++ rest) w = run_steps (idx + length pre) rest w1.
Proof.
  induction 1 as [ idx w | idx step pre w data w1 w' Hstep Hrest IH ].
  - now rewrite Nat.add_0_r.
  - rewrite <- app_comm_cons, (run_steps_success_step _ _ _ _ _ _ Hstep), IH.
    f_equal. simpl length. lia.
Qed.

(** A prefix of successful steps appends one result each and leaves
    the status and the agents as they were. *)
Lemma prefix_done_results idx pre w w1 :
  prefix_done idx pre w w1 ->
  agents w1 = agents w /\ j_status (job w1) = j_status (job w) /\
  exists rs, j_result (job w1) = j_result (job w) ++ rs /\ length rs = length pre.
Proof.
  induction 1 as [ idx w | idx step pre w data w1 w' Hstep Hrest IH ].
  - repeat split. exists []. now rewrite app_nil_r.
  - pose proof (run_step_frame idx step w) as F. rewrite Hstep in F.
    destruct F as (Fa & Fr & Fs).
    destruct IH as (Ia & Is & rs & Ir & Il).
    unfold exec in Ia, Is, Ir. simpl in Ia, Is, Ir.
    repeat split; try congruence.
    exists (success_entry data :: rs). rewrite Ir, Fr, <- app_assoc.
    split; [reflexivity | simpl; congruence].
Qed.

Lemma all_succeeding_prefix ags steps :
  Forall (succeeding_step ags) steps ->
  forall idx w, agents w = ags ->
    exists w' es,
      prefix_done idx steps w w' /\
      j_agent_history (job w') = j_agent_history (job w) ++ es /\
      Forall2 first_attempt_of steps es /\
      sleeps w' = sleeps w.
Proof.
  induction 1 as [ | step steps Hstep Hsteps IH ]; intros idx w Hags.
  - exists w, []. rewrite app_nil_r. repeat split; constructor.
  - destruct Hstep as (d & r & -> & Hin & Hr & Hpos & Hok).
    destruct (run_step_first_success ags idx d r w Hags Hin Hr Hpos Hok)
      as (data & e & w1 & Hrun & Hatt & Hsl).
    destruct Hatt as (Aa & As & Ar & Ah & An & Af).
    destruct (IH (S idx) (exec (append_result (success_entry data)) w1))
      as (w' & es & Hpre & Hh & Hall & Hsl').
    { unfold exec. simpl. congruence. }
    exists w', (e :: es). split; [ | split; [ | split ] ].
    + econstructor; eassumption.
    + rewrite Hh. unfold exec. simpl. rewrite Ah, <- app_assoc. reflexivity.
    + constructor; [ | assumption ].
      exists d. inversion Af as [ | ? ? [_ Hag] _ ]; subst.
      injection An as Hat. auto.
    + rewrite Hsl'. unfold exec. simpl. exact Hsl.
Qed.

Lemma execute_workflow_returns self job_id j steps w' :
  get_job self job_id = Some j ->
  py_get (j_payload j) "steps" (VList []) = inr (VList steps) ->
  run_steps 0 steps (task_world self j) = Ok tt w' ->
  _execute_workflow job_id self = (Returned, store self job_id w') /\
  get_job (store self job_id w') job_id = Some (job w').
Proof.
  intros Hj Hsteps Hrun. unfold get_job in Hj.
  unfold _execute_workflow. rewrite Hj.
  unfold execute_job, bind, this_job, lift. simpl job. rewrite Hsteps. simpl py_iter.
  cbv iota beta. fold (task_world self j). rewrite Hrun.
  split; [reflexivity | ].
  unfold get_job, store. simpl. apply dict_get_set_same.
Qed.

(** C1. For every workflow of N step dictionaries with a positive
    retry count, if every invocation of an agent answers with a
    dictionary whose status is "success", the background task of a
    job with no history and no results yet returns with the job's
    status "finished", N results, and a history holding exactly one
    entry per step, in step order, each with attempt number 1; no
    backoff sleep occurs. *)
Theorem all_success_finishes self job_id j steps :
  get_job self job_id = Some j ->
  j_agent_history j = [] -> j_result j = [] ->
  py_get (j_payload j) "steps" (VList []) = inr (VList steps) ->
  Forall (succeeding_step (self_agents self)) steps ->
  exists self' j',
    _execute_workflow job_id self = (Returned, self') /\
    get_job self' job_id = Some j' /\
    j_status j' = "finished" /\
    length (j_result j') = length steps /\
    Forall2 first_attempt_of steps (j_agent_history j') /\
    length (j_agent_history j') = length steps /\
    self_sleeps self' = self_sleeps self.
Proof.
  intros Hj Hh Hr Hsteps Hall.
  destruct (all_succeeding_prefix _ _ Hall 0%nat (task_world self j) eq_refl)
    as (w1 & es & Hpre & Hhist & Hentries & Hsl).
  destruct (prefix_done_results _ _ _ _ Hpre) as (Ha & Hs & rs & Hrs & Hlen).
  pose proof (run_steps_after_prefix 0 steps [] _ _ Hpre) as Hrun.
  rewrite app_nil_r in Hrun.
  set (w' := exec (run_steps (0 + length steps) []) w1).
  assert (Hrun' : run_steps 0 steps (task_world self j) = Ok tt w')
    by (rewrite Hrun; reflexivity).
  destruct (execute_workflow_returns _ _ _ _ _ Hj Hsteps Hrun') as (He & Hg).
  exists (store self job_id w'), (job w').
  simpl in Hhist, Hrs. rewrite Hh in Hhist. rewrite Hr in Hrs. simpl in Hhist, Hrs.
  subst w'. unfold exec. simpl.
  repeat split; auto.
  - now rewrite Hrs.
  - now rewrite Hhist.
  - rewrite Hhist. symmetry. eapply Forall2_length; eassumption.
Qed.

(** The driver at a step whose outcome is a failure. *)
Lemma run_steps_failed_step idx d rest err w w2 :
  _run_step idx (VDict d) w = Ok (VDict [(KStr "status", VStr "failed"); (KStr "error", err)]) w2 ->
  exists w',
    run_steps idx (VDict d :: rest) w = Ok tt w' /\
    agents w' = agents w2 /\
    j_status (job w') = "failed" /\
    j_result (job w') =
      j_result (job w2) ++ [VDict [(KStr "status", VStr "failed"); (KStr "data", VNone)]] /\
    j_agent_history (job w') = j_agent_history (job w2) /\
    calls w' = calls w2 /\ sleeps w' = sleeps w2.
Proof.
  intros H. unfold run_steps; fold run_steps.
  unfold bind at 1. rewrite H.
  eexists. split; [reflexivity | ]. simpl. repeat split.
Qed.


(** Closing [answers] goals for the sample agents. *)
Ltac sample_answers :=
  let payload := fresh "payload" in
  let w := fresh "w" in
  let H := fresh "H" in
  intros payload w H; unfold _call_agent; simpl hashable; cbv iota beta;
  rewrite H; simpl; do 2 eexists; split; reflexivity.

Ltac sample_step :=
  eexists _, _; split; [reflexivity | ];
  split; [eexists; reflexivity | ];
  split; [reflexivity | ];
  split; [lia | sample_answers].

Lemma all_success_finishes_witness :
  exists self' j',
    _execute_workflow (KStr "job-1")
        (Sample.submit [VDict Sample.browse; VDict Sample.extract]) = (Returned, self') /\
    get_job self' (KStr "job-1") = Some j' /\
    j_status j' = "finished" /\
    length (j_result j') = 2%nat /\
    Forall2 first_attempt_of [VDict Sample.browse; VDict Sample.extract]
            (j_agent_history j') /\
    length (j_agent_history j') = 2%nat /\
    self_sleeps self' = [].
Proof.
  apply (all_success_finishes
           (Sample.submit [VDict Sample.browse; VDict Sample.extract]) (KStr "job-1")
           (Sample.submitted [VDict Sample.browse; VDict Sample.extract])
           [VDict Sample.browse; VDict Sample.extract]).
  - reflexivity.
  - reflexivity.
  - reflexivity.
  - reflexivity.
  - repeat constructor; sample_step.
Defined.


(** ** Where the source departs from the specification *)

(** C3. A step with retry = 2 whose agent fails twice: the executor
    sleeps after the first failed attempt and again, for one second,
    after the second and final one, before it returns the failed
    outcome; two attempts, two sleeps. *)
Theorem backoff_follows_final_attempt :
  exists resp w',
    _run_step 0 (VDict (Sample.summarize 2)) Sample.idle = Ok resp w' /\
    status_of resp = VStr "failed" /\
    map e_attempt (j_agent_history (job w')) = [1; 2]%nat /\
    sleeps w' = [backoff 1; backoff 2] /\
    (backoff 1 == 1 # 2)%Q /\ (backoff 2 == 1)%Q.
Proof.
  eexists _, _. split; [cbv; reflexivity | ].
  repeat split.
Qed.

(** C4. An agent that answers with the string "oops": formatting the
    "Finished" line calls [.get] on it, [AttributeError] leaves the
    step executor and the background task; the job keeps status
    "running" with no result entry and no warning in its log. *)
Theorem non_dict_result_raises :
  let steps := [VDict [(KStr "agent", VStr "broken"); (KStr "retry", VInt 2)]] in
  exists e self' j',
    _execute_workflow (KStr "job-1") (Sample.submit steps) = (Raised e, self') /\
    exn_class e = "AttributeError" /\
    get_job self' (KStr "job-1") = Some j' /\
    j_status j' = "running" /\
    j_result j' = [] /\
    map e_result (j_agent_history j') = [VStr "oops"] /\
    map level (j_logs j') = ["info"].
Proof.
  intros steps. eexists _, _, _. split; [cbv; reflexivity | ].
  repeat split.
Qed.

(** C6. The path "previous.steps.-1.data.f" is accepted: [int("-1")]
    is -1, which is below the length of the result list, and the
    negative index selects the last result, whose field is projected
    into the payload. *)
Theorem negative_index_projects_last_result :
  let step := VDict [(KStr "agent", VStr "extractor");
                     (KStr "input_path", VStr "previous.steps.-1.data.f")] in
  let j := MkJob (VStr "job-1") "running" 0 (VDict []) [] []
                 [success_entry (VDict [(KStr "f", VInt 7)]);
                  success_entry (VDict [(KStr "f", VInt 42)])] None in
  _resolve_input step j = inr [(KStr "_from_previous", VInt 42)].
Proof. reflexivity. Qed.

(** ** Retry counts of zero or less *)

(** C10. A step dictionary whose retry count converts to an integer
    r <= 0: the step executor makes no attempt and returns
    {status: failed, error: None} in the world it was called in (no
    agent call, no history entry, no log line), and the driver then
    fails the job at that step. *)
Theorem nonpositive_retry_fails_without_attempt idx d post r w :
  retry_is d r -> (r <= 0)%Z ->
  _run_step idx (VDict d) w =
    Ok (VDict [(KStr "status", VStr "failed"); (KStr "error", VNone)]) w /\
  exists w',
    run_steps idx (VDict d :: post) w = Ok tt w' /\
    j_status (job w') = "failed" /\
    j_result (job w') =
      j_result (job w) ++ [VDict [(KStr "status", VStr "failed"); (KStr "data", VNone)]] /\
    j_agent_history (job w') = j_agent_history (job w) /\
    calls w' = calls w /\ sleeps w' = sleeps w.
Proof.
  intros Hr Hle.
  assert (Hrun : _run_step idx (VDict d) w =
                 Ok (VDict [(KStr "status", VStr "failed"); (KStr "error", VNone)]) w).
  { rewrite (run_step_attempts _ _ _ _ Hr).
    replace (Z.to_nat r) with 0%nat by lia. reflexivity. }
  split; [exact Hrun | ].
  destruct (run_steps_failed_step idx d post _ _ _ Hrun) as (w' & H1 & _ & H2 & H3 & H4 & H5 & H6).
  exists w'. repeat split; assumption.
Qed.

Lemma nonpositive_retry_fails_without_attempt_witness :
  let d := [(KStr "agent", VStr "browser"); (KStr "retry", VInt 0)] in
  _run_step 0 (VDict d) Sample.idle =
    Ok (VDict [(KStr "status", VStr "failed"); (KStr "error", VNone)]) Sample.idle /\
  exists w',
    run_steps 0 (VDict d :: [VDict Sample.extract]) Sample.idle = Ok tt w' /\
    j_status (job w') = "failed" /\
    j_result (job w') =
      j_result (job Sample.idle) ++
      [VDict [(KStr "status", VStr "failed"); (KStr "data", VNone)]] /\
    j_agent_history (job w') = j_agent_history (job Sample.idle) /\
    calls w' = calls Sample.idle /\ sleeps w' = sleeps Sample.idle.
Proof.
  intros d.
  apply (nonpositive_retry_fails_without_attempt 0 d [VDict Sample.extract] 0 Sample.idle).
  - reflexivity.
  - lia.
Defined.

(** ** Unregistered agents *)




(** ** Exceptions and timeouts in the adapter *)







(** ** References that do not resolve *)

Lemma split_dot_head s :
  forall a b r, split_dot s = a :: b :: r -> exists s', s = (a ++ String "." s')%string.
Proof.
  induction s as [ | c s IH ]; intros a b r H; simpl in H; [discriminate | ].
  destruct (Ascii.eqb c ".") eqn:E.
  - apply Ascii.eqb_eq in E. subst c. injection H as <- _. now exists s.
  - destruct (split_dot s) as [ | hd tl ] eqn:Es; [discriminate | ].
    injection H as <- Htl. subst tl.
    destruct (IH hd b r eq_refl) as [s' ->]. now exists s'.
Qed.

Lemma walk_None fields : walk VNone fields = VNone.
Proof. induction fields; simpl; auto. Qed.

(** Where the specification's lookup fails, the loop ends on [None]. *)
Lemma walk_miss fields :
  forall v, spec_lookup v fields = None -> walk v fields = VNone.
Proof.
  induction fields as [ | f fs IH ]; intros v H; simpl in H; [discriminate | ].
  change (walk v (f :: fs)) with (walk (walk_step v f) fs).
  destruct v; simpl; try apply walk_None.
  unfold dict_get_default. destruct (dict_get d (KStr f)) as [v' | ].
  - now apply IH.
  - apply walk_None.
Qed.

Lemma walk_miss_or_falsy data fields :
  fields <> [] ->
  data = VNone \/ spec_lookup data fields = None ->
  walk (py_or data (VDict [])) fields = VNone.
Proof.
  intros Hne H. unfold py_or. destruct (py_truthy data) eqn:T.
  - destruct H as [-> | H]; [discriminate | now apply walk_miss].
  - destruct fields as [ | f fs ]; [contradiction | ]. simpl. apply walk_None.
Qed.

(** The [try] block on a path of the recognised form. *)
Lemma resolve_try_reference base path i f fs idx j :
  split_dot path = "previous" :: "steps" :: i :: "data" :: f :: fs ->
  int_of_string i = Some idx ->
  resolve_try base (VStr path) j =
    (try! prev_result <-
       (if (idx <? Z.of_nat (length (j_result j)))%Z
        then py_index (j_result j) idx else inr VNone);
     if py_truthy prev_result then
       try! data <- py_get prev_result "data" VNone;
       inr (Some (dict_set base (KStr "_from_previous")
                           (walk (py_or data (VDict [])) (f :: fs))))
     else inr None).
Proof.
  intros Hsplit Hint.
  destruct (split_dot_head _ _ _ _ Hsplit) as [s' Hpath].
  unfold resolve_try, py_startswith, fbind at 1.
  replace (prefix "previous." path) with true
    by (rewrite Hpath; simpl; destruct s'; reflexivity).
  rewrite Hsplit. unfold nth_str. simpl nth. simpl length.
  change (String.eqb "steps" "steps") with true.
  change (String.eqb "data" "data") with true.
  cbv beta iota. simpl andb. cbv iota.
  unfold py_int. rewrite Hint. reflexivity.
Qed.

(** C5, lookup miss. The path names field [b] under [a], but [a] of
    step 0's data is a number: the payload still gets the key
    [_from_previous], holding [None]; it is not the payload built from
    [input] alone. *)
Lemma lookup_miss_sets_key_to_None :
  let step := VDict [(KStr "agent", VStr "extractor");
                     (KStr "input_path", VStr "previous.steps.0.data.a.b")] in
  let j := MkJob (VStr "job-1") "running" 0 (VDict []) [] []
                 [success_entry (VDict [(KStr "a", VInt 1)])] None in
  spec_lookup (VDict [(KStr "a", VInt 1)]) ["a"; "b"] = None /\
  exists payload,
    _resolve_input step j = inr payload /\
    dict_get payload (KStr "_from_previous") = Some VNone /\
    payload <> [].
Proof.
  split; [reflexivity | ].
  eexists. split; [reflexivity | ]. split; [reflexivity | discriminate].
Qed.

(** C5, amended. For a step dictionary whose [input] converts to the
    payload [base] and whose [input_path] has the form
    previous.steps.<idx>.data.<fields>: when [idx] is out of range of
    the job's result list, resolution returns [base] as it is; when
    [idx] is in range and the referenced step's data is absent or a
    field lookup fails, it returns [base] with [_from_previous] set to
    [None]; no exception propagates in either case. *)
Theorem unresolved_reference_degrades d base path i f fs idx j :
  py_dict (py_or (dict_get_default d "input" VNone) (VDict [])) = inr base ->
  dict_get_default d "input_path" VNone = VStr path ->
  split_dot path = "previous" :: "steps" :: i :: "data" :: f :: fs ->
  int_of_string i = Some idx ->
  ((Z.of_nat (length (j_result j)) <= idx \/ idx < - Z.of_nat (length (j_result j)))%Z ->
   _resolve_input (VDict d) j = inr base) /\
  (forall st data,
     (0 <= idx)%Z ->
     nth_error (j_result j) (Z.to_nat idx)
       = Some (VDict [(KStr "status", st); (KStr "data", data)]) ->
     data = VNone \/ spec_lookup data (f :: fs) = None ->
     _resolve_input (VDict d) j = inr (dict_set base (KStr "_from_previous") VNone) /\
     dict_get (dict_set base (KStr "_from_previous") VNone) (KStr "_from_previous")
       = Some VNone).
Proof.
  intros Hbase Hpath Hsplit Hint.
  assert (Htruthy : py_truthy (VStr path) = true).
  { destruct path; [discriminate Hsplit | reflexivity]. }
  assert (Hres : _resolve_input (VDict d) j =
                 match resolve_try base (VStr path) j with
                 | inr (Some payload) => inr payload
                 | inr None => inr base
                 | inl e => if exn_is_Exception e then inr base else inl e
                 end).
  { unfold _resolve_input. simpl py_get. unfold fbind at 1. rewrite Hbase.
    unfold fbind at 1. unfold fbind at 1. rewrite Hpath, Htruthy. reflexivity. }
  rewrite Hres, (resolve_try_reference _ _ _ _ _ _ _ Hsplit Hint).
  split.
  - intros [Hhigh | Hlow].
    + replace (idx <? Z.of_nat (length (j_result j)))%Z with false
        by (symmetry; apply Z.ltb_ge; lia).
      reflexivity.
    + replace (idx <? Z.of_nat (length (j_result j)))%Z with true
        by (symmetry; apply Z.ltb_lt; lia).
      unfold py_index.
      replace (idx <? 0)%Z with true by (symmetry; apply Z.ltb_lt; lia).
      replace (0 <=? idx + Z.of_nat (length (j_result j)))%Z with false
        by (symmetry; apply Z.leb_gt; lia).
      reflexivity.
  - intros st data Hpos Hnth Hmiss.
    assert (Hlt : (Z.to_nat idx < length (j_result j))%nat).
    { apply nth_error_Some. rewrite Hnth. discriminate. }
    replace (idx <? Z.of_nat (length (j_result j)))%Z with true
      by (symmetry; apply Z.ltb_lt; lia).
    unfold py_index.
    replace (idx <? 0)%Z with false by (symmetry; apply Z.ltb_ge; lia).
    replace (0 <=? idx)%Z with true by (symmetry; apply Z.leb_le; lia).
    replace (idx <? Z.of_nat (length (j_result j)))%Z with true
      by (symmetry; apply Z.ltb_lt; lia).
    simpl andb. cbv iota. rewrite Hnth.
    unfold fbind, py_get, py_truthy, dict_get_default.
    change (dict_get [(KStr "status", st); (KStr "data", data)] (KStr "data"))
      with (Some data).
    cbv iota beta.
    rewrite (walk_miss_or_falsy data (f :: fs)) by (discriminate || assumption).
    split; [reflexivity | apply dict_get_set_same].
Qed.

Lemma unresolved_reference_degrades_witness :
  let step := fun path => [(KStr "agent", VStr "extractor"); (KStr "input_path", VStr path)] in
  let j := MkJob (VStr "job-1") "running" 0 (VDict []) [] []
                 [success_entry (VDict [(KStr "a", VInt 1)])] None in
  _resolve_input (VDict (step "previous.steps.3.data.a.b")) j = inr [] /\
  _resolve_input (VDict (step "previous.steps.0.data.a.b")) j
    = inr [(KStr "_from_previous", VNone)].
Proof.
  intros step j. split.
  - apply (proj1 (unresolved_reference_degrades
                    (step "previous.steps.3.data.a.b") [] "previous.steps.3.data.a.b"
                    "3" "a" ["b"] 3 j eq_refl eq_refl eq_refl eq_refl)).
    left. simpl. lia.
  - apply (proj2 (unresolved_reference_degrades
                    (step "previous.steps.0.data.a.b") [] "previous.steps.0.data.a.b"
                    "0" "a" ["b"] 0 j eq_refl eq_refl eq_refl eq_refl)
                 (VStr "success") (VDict [(KStr "a", VInt 1)])).
    + lia.
    + reflexivity.
    + right. reflexivity.
Defined.

(** * Further properties of the orchestrator *)

(** ** The retry loop, whatever the agents do *)

(** One pass through the loop, by what resolution, the adapter and the
    "Finished" line do. *)
Lemma attempts_unfold step name agent_name timeout remaining attempt last_err w :
  attempts step name agent_name timeout (S remaining) attempt last_err w =
    let w0 := started name agent_name (S attempt) w in
    match _resolve_input step (job w) with
    | inl e => Exc e w0
    | inr payload =>
        match _call_agent agent_name (VDict payload) timeout w0 with
        | Exc e w2 => Exc e w2
        | Hang w2 => Hang w2
        | Ok result w2 =>
            match result with
            | VDict d =>
                let w3 := recorded name agent_name (S attempt) (clock w) d w2 in
                if is_success result
                then Ok (success_entry (data_of result)) w3
                else attempts step name agent_name timeout remaining (S attempt) result
                       (backed_off name (S attempt) d w3)
            | _ =>
                match py_get result "status" (VStr "unknown") with
                | inl e => Exc e (entered name agent_name (S attempt) (clock w) result w2)
                | inr _ => Hang w2
                end
            end
        end
    end.
Proof.
  cbv zeta.
  destruct (_resolve_input step (job w)) as [e | payload] eqn:Hres.
  - unfold attempts; fold attempts.
    unfold bind at 1. unfold now_ts at 1.
    unfold bind at 1. unfold log at 1, set_job at 1.
    unfold bind at 1. unfold this_job at 1. simpl job.
    unfold bind at 1.
    replace (_resolve_input step _) with (@inl exn (list (key * value)) e).
    reflexivity.
  - destruct (_call_agent agent_name (VDict payload) timeout
                (started name agent_name (S attempt) w)) as [result w2 | e w2 | w2] eqn:Hcall.
    + destruct result as [ | b | z | s | l | d ];
        try (unfold attempts; fold attempts;
             unfold started, exec in Hcall; simpl in Hcall;
             unfold bind at 1; unfold now_ts at 1;
             unfold bind at 1; unfold log at 1, set_job at 1;
             unfold bind at 1; unfold this_job at 1; simpl job;
             unfold bind at 1;
             replace (_resolve_input step _) with (@inr exn _ payload);
             unfold lift at 1; unfold bind at 1; rewrite Hcall; reflexivity).
      rewrite (attempts_pass _ _ _ _ _ _ _ _ _ _ _ Hres Hcall). reflexivity.
    + unfold attempts; fold attempts.
      unfold started, exec in Hcall. simpl in Hcall.
      unfold bind at 1. unfold now_ts at 1.
      unfold bind at 1. unfold log at 1, set_job at 1.
      unfold bind at 1. unfold this_job at 1. simpl job.
      unfold bind at 1.
      replace (_resolve_input step _) with (@inr exn _ payload).
      unfold lift at 1. unfold bind at 1. rewrite Hcall. reflexivity.
    + unfold attempts; fold attempts.
      unfold started, exec in Hcall. simpl in Hcall.
      unfold bind at 1. unfold now_ts at 1.
      unfold bind at 1. unfold log at 1, set_job at 1.
      unfold bind at 1. unfold this_job at 1. simpl job.
      unfold bind at 1.
      replace (_resolve_input step _) with (@inr exn _ payload).
      unfold lift at 1. unfold bind at 1. rewrite Hcall. reflexivity.
Qed.

Lemma call_agent_calls agent_name payload timeout w :
  exists cs,
    calls (world_of (_call_agent agent_name payload timeout w)) = calls w ++ cs /\
    (length cs <= 1)%nat.
Proof.
  assert (Hinv : forall a k p dt, exists cs,
             calls (invoked a k p dt w) = calls w ++ cs /\ (length cs <= 1)%nat).
  { intros a k p dt. unfold invoked. simpl. destruct (dispatch a).
    - eexists. split; [reflexivity | simpl; lia].
    - exists []. rewrite app_nil_r. split; [reflexivity | simpl; lia]. }
  assert (Hnil : exists cs, calls w = calls w ++ cs /\ (length cs <= 1)%nat).
  { exists []. rewrite app_nil_r. split; [reflexivity | simpl; lia]. }
  unfold _call_agent.
  destruct (hashable agent_name) as [e | k]; [exact Hnil | ].
  destruct (dict_get (agents w) k) as [a | ]; [ | exact Hnil ].
  destruct (py_truthy timeout).
  - destruct (py_number timeout) as [e | t]; [exact Hnil | ].
    destruct (_invoke _ _ _) as [dt [e | v] | ]; try destruct (Qle_bool dt t);
      cbn [world_of]; apply Hinv.
  - destruct (_invoke _ _ _) as [dt [e | v] | ]; cbn [world_of]; apply Hinv.
Qed.

Lemma attempts_general step name agent_name timeout remaining :
  forall attempt last_err w,
    attempts_trace name agent_name attempt remaining w
      (attempts step name agent_name timeout remaining attempt last_err w).
Proof.
  induction remaining as [ | remaining IH ]; intros attempt last_err w.
  - exists [], [], [], []. simpl. unfold job_grows. rewrite !app_nil_r.
    repeat split; auto. right. eexists. split; reflexivity.
  - rewrite attempts_unfold. cbv zeta.
    destruct (_resolve_input step (job w)) as [e | payload].
    { eexists _, [], [], []. unfold started, exec, job_grows. simpl.
      repeat split; try reflexivity; rewrite ?app_nil_r; auto; lia. }
    pose proof (call_agent_frame agent_name (VDict payload) timeout
                  (started name agent_name (S attempt) w)) as F.
    destruct (call_agent_calls agent_name (VDict payload) timeout
                (started name agent_name (S attempt) w)) as (cs0 & Hcs0 & Hlen0).
    destruct (_call_agent agent_name (VDict payload) timeout
                (started name agent_name (S attempt) w)) as [result w2 | e w2 | w2];
      destruct F as (Fa & Fj & Fs); unfold started, exec in Fa, Fj, Fs, Hcs0;
      simpl in Fa, Fj, Fs, Hcs0.
    2,3: eexists _, [], cs0, []; unfold job_grows; simpl;
         rewrite Fj, Fa, Fs, Hcs0; simpl;
         repeat split; try reflexivity; rewrite ?app_nil_r; auto; lia.
    destruct result as [ | b | z | s | l | d ].
    1-5: eexists _, [_], cs0, []; unfold entered, exec, job_grows; simpl;
         rewrite Fj, Fa, Fs, Hcs0; simpl;
         repeat split; try reflexivity; rewrite ?app_nil_r; auto; try lia;
         solve [repeat constructor].
    destruct (is_success (VDict d)).
    + eexists _, [_], cs0, []. unfold recorded, exec, job_grows. simpl.
      rewrite Fj, Fa, Fs, Hcs0. simpl. rewrite <- !app_assoc.
      repeat split; try reflexivity; rewrite ?app_nil_r; auto; try lia;
        try solve [repeat constructor].
      left. eexists. split; [reflexivity | discriminate].
    + match goal with |- attempts_trace _ _ _ _ _ (attempts _ _ _ _ _ ?a ?l ?w4) =>
        destruct (IH a l w4) as (ls & es & cs & zs & G & Gs & Gf & Ga & Gc & Gcl & Gz & Gn & Gl & Gall & Go);
        set (o := attempts step name agent_name timeout remaining a l w4) in *
      end.
      destruct G as (G1 & G2 & G3 & G4 & G5 & G6).
      unfold backed_off, recorded, exec in G1, G2, G3, G4, G5, G6, Gs, Gf, Ga, Gc, Gz.
      simpl in G1, G2, G3, G4, G5, G6, Gs, Gf, Ga, Gc, Gz.
      rewrite Fj in G1, G2, G3, G4, G5, G6, Gs, Gf. simpl in G1, G2, G3, G4, G5, G6, Gs, Gf.
      rewrite Fa in Ga. rewrite Hcs0 in Gc. rewrite Fs in Gz.
      eexists _, (_ :: es), (cs0 ++ cs), (_ :: zs). unfold job_grows.
      rewrite G1, G2, G3, G4, G5, G6, Gs, Gf, Ga, Gc, Gz, <- !app_assoc.
      cbn [app length map]. rewrite Gn, length_app.
      repeat split; try reflexivity; auto; try lia;
        try solve [constructor; [split; reflexivity | assumption]].
      destruct o as [resp wo | eo wo | wo]; auto.
      destruct Go as [(data & -> & Hne) | (err & -> & Hlen)].
      * left. eexists. split; [reflexivity | discriminate].
      * right. eexists. split; [reflexivity | simpl; congruence].
Qed.

Lemma run_step_general idx step w :
  exists name agent_name n,
    attempts_trace name agent_name 0 n w (_run_step idx step w) /\
    forall d r, step = VDict d -> retry_is d r ->
      n = Z.to_nat r /\ name = step_name idx d /\ agent_name = step_agent d.
Proof.
  assert (Hstop : forall e, attempts_trace VNone VNone 0 0 w (Exc e w)).
  { intros e. exists [], [], [], []. unfold job_grows. simpl. rewrite !app_nil_r.
    repeat split; auto. }
  destruct step as [ | b | z | s | l | d ];
    try (exists VNone, VNone, 0%nat; split; [apply Hstop | discriminate]).
  unfold _run_step, bind, lift. simpl py_get. cbv iota beta.
  destruct (py_int (dict_get_default d "retry" (VInt 1))) as [e | r] eqn:Hr.
  - exists VNone, VNone, 0%nat. split; [apply Hstop | ].
    intros d' r' [= <-] Hr'. unfold retry_is in Hr'. congruence.
  - eexists _, _, _. split; [apply attempts_general | ].
    intros d' r' [= <-] Hr'. unfold retry_is in Hr'.
    assert (r' = r) by congruence. subst. repeat split.
Qed.

Lemma job_grows_trans j j1 j2 l1 e1 r1 l2 e2 r2 :
  job_grows j j1 l1 e1 r1 -> job_grows j1 j2 l2 e2 r2 ->
  job_grows j j2 (l1 ++ l2) (e1 ++ e2) (r1 ++ r2).
Proof.
  unfold job_grows. intros (A1 & A2 & A3 & A4 & A5 & A6) (B1 & B2 & B3 & B4 & B5 & B6).
  rewrite B1, B2, B3, B4, B5, B6, A1, A2, A3, A4, A5, A6, <- !app_assoc.
  repeat split.
Qed.

Lemma run_steps_general steps :
  forall idx w, run_trace steps w (run_steps idx steps w).
Proof.
  induction steps as [ | step rest IH ]; intros idx w.
  - eexists [_], [], []. unfold job_grows. simpl. rewrite !app_nil_r.
    repeat split; auto; try discriminate; try (left; repeat split; constructor).
  - unfold run_steps; fold run_steps. unfold bind at 1.
    destruct (run_step_general idx step w) as (name & agn & n & T & _).
    destruct T as (ls & es & cs & zs & G & Gs & Gf & Ga & _ & _ & _ & _ & _ & _ & Go).
    destruct (_run_step idx step w) as [resp w1 | e w1 | w1] eqn:Hrun;
      cbn [world_of] in *.
    2,3: exists ls, es, []; split; [exact G | ];
         repeat split; auto; simpl; try lia; constructor.
    destruct Go as [(data & -> & _) | (err & -> & _)].
    + unfold bind at 1. unfold lift at 1. simpl py_get. cbv iota beta.
      unfold bind at 1. unfold lift at 1. cbv iota beta.
      unfold bind at 1. unfold append_result at 1, set_job at 1.
      change (negb (py_eq_str (dict_get_default [(KStr "status", VStr "success");
                                                 (KStr "data", data)] "status" VNone)
                              "success")) with false.
      cbv iota.
      match goal with |- run_trace _ _ (run_steps _ _ ?w2) =>
        destruct (IH (S idx) w2) as (ls' & es' & rs' & G' & Ga' & Go');
        set (o := run_steps (S idx) rest w2) in *
      end.
      assert (Hg : job_grows (job w) (job (world_of o)) (ls ++ ls') (es ++ es')
                             (success_entry data :: rs')).
      { change (success_entry data :: rs') with (([] ++ [success_entry data]) ++ rs').
        eapply job_grows_trans; [ | exact G' ].
        replace ls with (ls ++ []) by apply app_nil_r.
        replace es with (es ++ []) by apply app_nil_r.
        eapply job_grows_trans; [exact G | ].
        unfold job_grows. simpl. rewrite !app_nil_r. repeat split. }
      exists (ls ++ ls'), (es ++ es'), (success_entry data :: rs').
      split; [exact Hg | ]. split; [simpl in Ga'; congruence | ].
      assert (Hs : is_success_entry (success_entry data)) by (eexists; reflexivity).
      destruct o as [u wo | eo wo | wo]; cbn [world_of] in *.
      * destruct Go' as (Hf & [(S1 & S2 & S3) | (S1 & S2 & ss & S3 & S4)]).
        -- split; [exact Hf | ]. left. repeat split; auto. simpl. congruence.
        -- split; [exact Hf | ]. right. split; [exact S1 | ].
           split; [simpl; lia | ].
           exists (success_entry data :: ss). rewrite S3. split; [reflexivity | ].
           constructor; assumption.
      * destruct Go' as (S1 & S2 & S3 & S4). simpl in S1, S2.
        repeat split; try congruence; [simpl; lia | constructor; assumption].
      * destruct Go' as (S1 & S2 & S3 & S4). simpl in S1, S2.
        repeat split; try congruence; [simpl; lia | constructor; assumption].
    + destruct step as [ | b | z | s | l | d ]; try discriminate Hrun.
      destruct G as (G1 & G2 & G3 & G4 & G5 & G6).
      eexists (ls ++ [_]), es, [failed_entry].
      unfold bind, lift, append_result, set_job, finish, now_ts, log, job_grows.
      simpl. rewrite G1, G2, G3, G4, G5, G6, Ga, <- !app_assoc.
      repeat split; auto; try discriminate.
      right. split; [reflexivity | ]. split; [lia | ].
      exists []. split; [reflexivity | constructor].
Qed.

(** ** The background task, whatever the agents do *)

Lemma execute_job_cases w :
  match steps_of (job w) with
  | inl e => execute_job w = Exc e w
  | inr l => execute_job w = run_steps 0 l w
  end.
Proof.
  unfold steps_of, execute_job, bind, this_job, lift, fbind.
  destruct (py_get (j_payload (job w)) "steps" (VList [])) as [e | v]; [reflexivity | ].
  destruct (py_iter v); reflexivity.
Qed.

Lemma execute_workflow_store self job_id j :
  get_job self job_id = Some j ->
  _execute_workflow job_id self =
    (match execute_job (task_world self j) with
     | Ok _ _ => Returned
     | Exc e _ => Raised e
     | Hang _ => Hung
     end,
     store self job_id (world_of (execute_job (task_world self j)))) /\
  get_job (store self job_id (world_of (execute_job (task_world self j)))) job_id
    = Some (job (world_of (execute_job (task_world self j)))).
Proof.
  intros Hj. unfold get_job in Hj. unfold _execute_workflow. rewrite Hj.
  fold (task_world self j).
  split; [destruct (execute_job (task_world self j)); reflexivity | ].
  unfold get_job, store. simpl. apply dict_get_set_same.
Qed.

Lemma execute_job_trace w :
  match steps_of (job w) with
  | inl e => execute_job w = Exc e w
  | inr l => run_trace l w (execute_job w)
  end.
Proof.
  pose proof (execute_job_cases w) as H.
  destruct (steps_of (job w)) as [e | l]; [exact H | ].
  rewrite H. apply run_steps_general.
Qed.



(** X2. When the background task of a registered job returns, the
    job's status is "finished" or "failed" and its finish time is set;
    when the task is ended by an exception or never returns, the
    status and the finish time are what they were before: a job whose
    task dies stays "running". *)
Theorem task_end_and_status self job_id j :
  get_job self job_id = Some j ->
  exists j',
    get_job (snd (_execute_workflow job_id self)) job_id = Some j' /\
    match fst (_execute_workflow job_id self) with
    | Returned =>
        (j_status j' = "finished" \/ j_status j' = "failed") /\ j_finished_at j' <> None
    | Raised _ | Hung =>
        j_status j' = j_status j /\ j_finished_at j' = j_finished_at j
    end.
Proof.
  intros Hj. destruct (execute_workflow_store _ _ _ Hj) as (He & Hg).
  rewrite He. cbn [fst snd]. rewrite Hg. eexists. split; [reflexivity | ].
  pose proof (execute_job_trace (task_world self j)) as T.
  destruct (steps_of (job (task_world self j))) as [e | l].
  - rewrite T. split; reflexivity.
  - destruct T as (ls & es & rs & G & Ga & Go).
    destruct (execute_job (task_world self j)) as [u w' | e w' | w']; cbn [world_of] in *.
    + destruct Go as (Hf & [(S1 & _) | (S1 & _)]); auto.
    + destruct Go as (S1 & S2 & _). auto.
    + destruct Go as (S1 & S2 & _). auto.
Qed.

Lemma task_end_and_status_witness :
  let steps := [VDict [(KStr "agent", VStr "broken")]] in
  exists j',
    get_job (snd (_execute_workflow (KStr "job-1") (Sample.submit steps))) (KStr "job-1")
      = Some j' /\
    match fst (_execute_workflow (KStr "job-1") (Sample.submit steps)) with
    | Returned =>
        (j_status j' = "finished" \/ j_status j' = "failed") /\ j_finished_at j' <> None
    | Raised _ | Hung =>
        j_status j' = j_status (Sample.submitted steps) /\
        j_finished_at j' = j_finished_at (Sample.submitted steps)
    end.
Proof.
  intros steps.
  apply (task_end_and_status (Sample.submit steps) (KStr "job-1") (Sample.submitted steps)).
  reflexivity.
Defined.

(** X3. When the background task returns, the entries it appended to
    the result list are: one success entry per step if the status is
    "finished"; if it is "failed", success entries for the steps
    before the failing one followed by {status: failed, data: None},
    and never more entries than steps. *)
Theorem returned_results_shape self job_id j steps :
  get_job self job_id = Some j ->
  steps_of j = inr steps ->
  fst (_execute_workflow job_id self) = Returned ->
  exists j' rs,
    get_job (snd (_execute_workflow job_id self)) job_id = Some j' /\
    j_result j' = j_result j ++ rs /\
    ((j_status j' = "finished" /\ length rs = length steps /\
      Forall is_success_entry rs) \/
     (j_status j' = "failed" /\ (length rs <= length steps)%nat /\
      exists ss, rs = ss ++ [failed_entry] /\ Forall is_success_entry ss)).
Proof.
  intros Hj Hsteps. destruct (execute_workflow_store _ _ _ Hj) as (He & Hg).
  rewrite He. cbn [fst snd]. rewrite Hg. intros Hret.
  pose proof (execute_job_trace (task_world self j)) as T.
  change (job (task_world self j)) with j in T. rewrite Hsteps in T.
  destruct T as (ls & es & rs & G & Ga & Go).
  destruct (execute_job (task_world self j)) as [u w' | e w' | w'];
    try discriminate Hret. cbn [world_of] in *.
  destruct G as (_ & _ & _ & _ & _ & Gr). destruct Go as (_ & Go).
  exists (job w'), rs. auto.
Qed.

Lemma returned_results_shape_witness :
  let steps := [VDict Sample.browse; VDict (Sample.summarize 2); VDict Sample.report] in
  exists j' rs,
    get_job (snd (_execute_workflow (KStr "job-1") (Sample.submit steps))) (KStr "job-1")
      = Some j' /\
    j_result j' = j_result (Sample.submitted steps) ++ rs /\
    ((j_status j' = "finished" /\ length rs = length steps /\
      Forall is_success_entry rs) \/
     (j_status j' = "failed" /\ (length rs <= length steps)%nat /\
      exists ss, rs = ss ++ [failed_entry] /\ Forall is_success_entry ss)).
Proof.
  intros steps.
  apply (returned_results_shape (Sample.submit steps) (KStr "job-1")
           (Sample.submitted steps) steps).
  - reflexivity.
  - reflexivity.
  - vm_compute. reflexivity.
Defined.

(** ** The registries *)

Lemma key_eqb_norm a b : key_eqb a b = true <-> key_norm a = key_norm b.
Proof.
  unfold key_eqb.
  destruct a as [ | [ | ] | x | s ], b as [ | [ | ] | y | t ]; cbn [key_norm];
    split; intros H; try discriminate H; try reflexivity;
    try (apply Z.eqb_eq in H; now subst);
    try (apply String.eqb_eq in H; now subst);
    try (injection H as H; subst; apply Z.eqb_refl);
    try (injection H as H; subst; apply String.eqb_refl).
Qed.

Lemma key_eqb_trans_false a b c :
  key_eqb a b = true -> key_eqb b c = false -> key_eqb a c = false.
Proof.
  intros Hab Hbc. destruct (key_eqb a c) eqn:Hac; [ | reflexivity ].
  apply key_eqb_norm in Hab, Hac.
  assert (H : key_eqb b c = true) by (apply key_eqb_norm; congruence).
  congruence.
Qed.

Lemma dict_get_set_other {V : Type} (d : list (key * V)) (k q : key) (v : V) :
  key_eqb k q = false -> dict_get (dict_set d k v) q = dict_get d q.
Proof.
  intros Hkq. induction d as [ | [k' v'] d IH ]; simpl.
  - now rewrite Hkq.
  - destruct (key_eqb k' k) eqn:E; simpl.
    + now rewrite (key_eqb_trans_false _ _ _ E Hkq).
    + destruct (key_eqb k' q); auto.
Qed.

Lemma execute_job_agents w : agents (world_of (execute_job w)) = agents w.
Proof.
  pose proof (execute_job_trace w) as T.
  destruct (steps_of (job w)) as [e | l].
  - now rewrite T.
  - destruct T as (ls & es & rs & _ & Ga & _). exact Ga.
Qed.

(** X4. The background task of one job reads and writes that job
    only: the registered agents are the same afterwards, and looking
    up any other job identifier gives what it gave before. *)
Theorem execution_touches_one_job self job_id other :
  key_eqb job_id other = false ->
  self_agents (snd (_execute_workflow job_id self)) = self_agents self /\
  get_job (snd (_execute_workflow job_id self)) other = get_job self other.
Proof.
  intros Hne. unfold _execute_workflow.
  destruct (dict_get (self_jobs self) job_id) as [j | ] eqn:Hj; [ | split; reflexivity ].
  fold (task_world self j).
  pose proof (execute_job_agents (task_world self j)) as Ha.
  destruct (execute_job (task_world self j)) as [u w' | e w' | w'];
    cbn [world_of snd] in *; unfold get_job, store; simpl;
    (split; [exact Ha | now apply dict_get_set_other]).
Qed.

Lemma execution_touches_one_job_witness :
  let self :=
    match start_workflow (VDict [(KStr "id", VStr "job-2"); (KStr "steps", VList [])])
                         "generated" (Sample.submit [VDict Sample.browse]) with
    | inr (_, self) => self
    | inl _ => Sample.submit []
    end in
  self_agents (snd (_execute_workflow (KStr "job-1") self)) = self_agents self /\
  get_job (snd (_execute_workflow (KStr "job-1") self)) (KStr "job-2")
    = get_job self (KStr "job-2").
Proof.
  intros self.
  apply (execution_touches_one_job self (KStr "job-1") (KStr "job-2")).
  reflexivity.
Defined.

Lemma dict_set_absent {V : Type} (d : list (key * V)) (k : key) (v : V) :
  dict_get d k = None -> dict_set d k v = d ++ [(k, v)].
Proof.
  induction d as [ | [k' v'] d IH ]; simpl; intros H; auto.
  destruct (key_eqb k' k); [discriminate | now rewrite IH].
Qed.

Lemma dict_set_present_length {V : Type} (d : list (key * V)) (k : key) (v old : V) :
  dict_get d k = Some old -> length (dict_set d k v) = length d.
Proof.
  induction d as [ | [k' v'] d IH ]; simpl; intros H; [discriminate | ].
  destruct (key_eqb k' k); simpl; auto.
Qed.

(** X5. Submitting a workflow dictionary whose identifier (its own
    [id] when truthy, else the generated one) is hashable registers a
    job with status "running" and empty log, history and results;
    [get_job] finds exactly that job under the identifier, every other
    identifier resolves as before, and the agents are unchanged. *)
Theorem submitted_job_is_found d uuid self k :
  hashable (py_or (dict_get_default d "id" VNone) (VStr uuid)) = inr k ->
  exists j self',
    start_workflow (VDict d) uuid self = inr (j, self') /\
    get_job self' k = Some j /\
    j_id j = py_or (dict_get_default d "id" VNone) (VStr uuid) /\
    j_status j = "running" /\ j_payload j = VDict d /\
    j_logs j = [] /\ j_agent_history j = [] /\ j_result j = [] /\
    self_agents self' = self_agents self /\
    forall other, key_eqb k other = false -> get_job self' other = get_job self other.
Proof.
  intros Hk. unfold start_workflow, fbind. simpl py_get. cbv iota beta. rewrite Hk.
  eexists _, _. split; [reflexivity | ].
  unfold get_job. simpl. repeat split.
  - apply dict_get_set_same.
  - intros other Hne. now apply dict_get_set_other.
Qed.

Lemma submitted_job_is_found_witness :
  exists j self',
    start_workflow (VDict [(KStr "steps", VList [])]) "7e1c" (Sample.submit []) = inr (j, self') /\
    get_job self' (KStr "7e1c") = Some j /\
    j_id j = py_or (dict_get_default [(KStr "steps", VList [])] "id" VNone) (VStr "7e1c") /\
    j_status j = "running" /\ j_payload j = VDict [(KStr "steps", VList [])] /\
    j_logs j = [] /\ j_agent_history j = [] /\ j_result j = [] /\
    self_agents self' = self_agents (Sample.submit []) /\
    forall other, key_eqb (KStr "7e1c") other = false ->
                  get_job self' other = get_job (Sample.submit []) other.
Proof.
  apply (submitted_job_is_found [(KStr "steps", VList [])] "7e1c" (Sample.submit [])
           (KStr "7e1c")).
  reflexivity.
Defined.

(** X6. Submitting under an identifier that is already registered
    replaces the stored job, even one still running, and [list_jobs]
    keeps its length; under an identifier not yet registered the new
    job is listed after the existing ones. *)
Theorem resubmission_overwrites d uuid self k j self' :
  hashable (py_or (dict_get_default d "id" VNone) (VStr uuid)) = inr k ->
  start_workflow (VDict d) uuid self = inr (j, self') ->
  (forall old, get_job self k = Some old ->
     get_job self' k = Some j /\ length (list_jobs self') = length (list_jobs self)) /\
  (get_job self k = None -> list_jobs self' = list_jobs self ++ [j]).
Proof.
  intros Hk. unfold start_workflow, fbind. simpl py_get. cbv iota beta. rewrite Hk.
  intros [= <- <-]. unfold get_job, list_jobs, dict_values. simpl. split.
  - intros old Hold. split; [apply dict_get_set_same | ].
    rewrite !length_map. eapply dict_set_present_length; eassumption.
  - intros Hnone. rewrite (dict_set_absent _ _ _ Hnone), map_app. reflexivity.
Qed.

Lemma resubmission_overwrites_witness :
  let again := new_job (VStr "job-1") 0 (VDict [(KStr "id", VStr "job-1")]) in
  let self' := MkOrchestrator Sample.registry [(KStr "job-1", again)] 0 [] [] in
  (forall old, get_job (Sample.submit [VDict Sample.browse]) (KStr "job-1") = Some old ->
     get_job self' (KStr "job-1") = Some again /\
     length (list_jobs self') = length (list_jobs (Sample.submit [VDict Sample.browse]))) /\
  (get_job (Sample.submit [VDict Sample.browse]) (KStr "job-1") = None ->
   list_jobs self' = list_jobs (Sample.submit [VDict Sample.browse]) ++ [again]).
Proof.
  intros again self'.
  apply (resubmission_overwrites [(KStr "id", VStr "job-1")] "generated"
           (Sample.submit [VDict Sample.browse]) (KStr "job-1") again self').
  - reflexivity.
  - reflexivity.
Defined.

(** X7. After [register_agent] under a name, a call of the adapter by
    that name reaches the registered agent: when its entry point
    returns a value in time, the adapter returns that very value,
    whatever its shape, and records the call; agents registered under
    other names are still found. *)
Theorem registered_agent_is_called self name a f payload timeout dt v w :
  agents w = self_agents (register_agent (KStr name) a self) ->
  dispatch a = Some f ->
  f (length (calls w)) payload = Returns dt v ->
  within timeout dt = true ->
  _call_agent (VStr name) payload timeout w
    = Ok v (MkWorld (agents w) (job w) (clock w + dt)%Q
                    (calls w ++ [(KStr name, payload)]) (sleeps w)) /\
  forall other, key_eqb (KStr name) other = false ->
    dict_get (agents w) other = dict_get (self_agents self) other.
Proof.
  intros Hags Hd Hf Hin. split.
  - unfold _call_agent. simpl hashable. cbv iota beta.
    rewrite Hags. unfold register_agent. simpl self_agents.
    rewrite dict_get_set_same. unfold _invoke, invoked. rewrite Hd, Hf.
    unfold within in Hin. destruct (py_truthy timeout); simpl in Hin.
    + destruct (py_number timeout) as [ | t ]; [discriminate | ].
      rewrite Hin. simpl. rewrite Hags. reflexivity.
    + simpl. rewrite Hags. reflexivity.
  - intros other Hne. rewrite Hags. unfold register_agent. simpl.
    now apply dict_get_set_other.
Qed.

Lemma registered_agent_is_called_witness :
  let self := MkOrchestrator Sample.registry [] 0 [] [] in
  let w := MkWorld (self_agents (register_agent (KStr "browser") Sample.broken self))
                   (new_job (VStr "job-1") 0 (VDict [])) 0 [] [] in
  _call_agent (VStr "browser") (VDict []) VNone w
    = Ok (VStr "oops") (MkWorld (agents w) (job w) (clock w + 1)%Q
                                (calls w ++ [(KStr "browser", VDict [])]) (sleeps w)) /\
  forall other, key_eqb (KStr "browser") other = false ->
    dict_get (agents w) other = dict_get (self_agents self) other.
Proof.
  intros self w.
  apply (registered_agent_is_called self "browser" Sample.broken
           (fun _ _ => Returns 1 (VStr "oops")) (VDict []) VNone 1 (VStr "oops") w).
  - reflexivity.
  - reflexivity.
  - reflexivity.
  - reflexivity.
Defined.

(** ** Attempts and delays *)

(** X8. Whatever the agents do and however the step executor ends, a
    step dictionary whose retry count is r gets history entries
    numbered 1, 2, ... without gap, each under the step's name and
    agent, at most r of them (none when r <= 0), and its agent is
    invoked at most r times. *)
Theorem step_attempts_numbered_and_bounded idx d r w :
  retry_is d r ->
  exists es cs,
    j_agent_history (job (world_of (_run_step idx (VDict d) w)))
      = j_agent_history (job w) ++ es /\
    map e_attempt es = seq 1 (length es) /\
    (length es <= Z.to_nat r)%nat /\
    Forall (fun e => e_name e = step_name idx d /\ e_agent e = step_agent d) es /\
    calls (world_of (_run_step idx (VDict d) w)) = calls w ++ cs /\
    (length cs <= Z.to_nat r)%nat.
Proof.
  intros Hr.
  destruct (run_step_general idx (VDict d) w) as (name & agn & n & T & Hn).
  destruct (Hn d r eq_refl Hr) as (-> & -> & ->).
  destruct T as (ls & es & cs & zs & G & _ & _ & _ & Gc & Gcl & _ & Gn & Gl & Gall & _).
  destruct G as (_ & _ & _ & _ & Gh & _).
  exists es, cs. repeat split; assumption.
Qed.

Lemma step_attempts_numbered_and_bounded_witness :
  exists es cs,
    j_agent_history (job (world_of (_run_step 0 (VDict (Sample.summarize 3)) Sample.idle)))
      = j_agent_history (job Sample.idle) ++ es /\
    map e_attempt es = seq 1 (length es) /\
    (length es <= Z.to_nat 3)%nat /\
    Forall (fun e => e_name e = step_name 0 (Sample.summarize 3) /\
                     e_agent e = step_agent (Sample.summarize 3)) es /\
    calls (world_of (_run_step 0 (VDict (Sample.summarize 3)) Sample.idle))
      = calls Sample.idle ++ cs /\
    (length cs <= Z.to_nat 3)%nat.
Proof.
  apply (step_attempts_numbered_and_bounded 0 (Sample.summarize 3) 3 Sample.idle).
  reflexivity.
Defined.





(** ** Input resolution, the other cases *)

Lemma prefix_split p : forall s, prefix p s = true -> exists r, s = (p ++ r)%string.
Proof.
  induction p as [ | a p IH ]; intros s H.
  - now exists s.
  - destruct s as [ | b s ]; simpl in H; [discriminate | ].
    destruct (ascii_dec a b) as [-> | ]; [ | discriminate ].
    destruct (IH s H) as [r ->]. now exists r.
Qed.

(** The [try] block returns from inside only on a path of the
    recognised form, and then with [_from_previous] set on [base]. *)
Lemma resolve_try_some base input_path j payload :
  resolve_try base input_path j = inr (Some payload) ->
  exists path i f fs v,
    input_path = VStr path /\
    split_dot path = "previous" :: "steps" :: i :: "data" :: f :: fs /\
    payload = dict_set base (KStr "_from_previous") v.
Proof.
  unfold resolve_try, py_startswith.
  destruct input_path as [ | b | z | path | l | d ]; simpl; try discriminate.
  destruct (prefix "previous." path) eqn:Hp; [ | discriminate ].
  destruct (prefix_split _ _ Hp) as [r ->].
  change (split_dot ("previous." ++ r)) with ("previous" :: split_dot r).
  destruct (split_dot r) as [ | p1 [ | p2 [ | p3 [ | p4 rest ] ] ] ] eqn:Hs;
    try discriminate.
  unfold nth_str. cbn [nth length Nat.leb andb].
  destruct (String.eqb p1 "steps") eqn:E1; [ | discriminate ].
  destruct (String.eqb p3 "data") eqn:E3; [ | discriminate ].
  apply String.eqb_eq in E1, E3. subst p1 p3. cbn [andb]. unfold fbind.
  destruct (int_of_string p2) as [idx | ]; [ | discriminate ].
  cbn [skipn].
  destruct (if (idx <? _)%Z then _ else _) as [e | prev]; [discriminate | ].
  destruct (py_truthy prev); [ | discriminate ].
  destruct (py_get prev "data" VNone) as [e | data]; [discriminate | ].
  intros [= <-]. exists ("previous." ++ r)%string, p2, p4, rest. eexists.
  split; [reflexivity | ]. split; [ | reflexivity ].
  change (split_dot ("previous." ++ r)) with ("previous" :: split_dot r).
  now rewrite Hs.
Qed.

Lemma resolve_input_cases d base j :
  py_dict (py_or (dict_get_default d "input" VNone) (VDict [])) = inr base ->
  _resolve_input (VDict d) j = inr base \/
  exists payload,
    resolve_try base (dict_get_default d "input_path" VNone) j = inr (Some payload) /\
    _resolve_input (VDict d) j = inr payload.
Proof.
  intros Hb. unfold _resolve_input. simpl py_get. unfold fbind. rewrite Hb.
  destruct (negb _); [now left | ].
  destruct (resolve_try _ _ _) as [e | [p | ]] eqn:E.
  - rewrite (resolve_try_raises_Exception _ _ _ _ E). now left.
  - right. eauto.
  - now left.
Qed.

Lemma walk_hit fields :
  forall v x, spec_lookup v fields = Some x -> walk v fields = x.
Proof.
  induction fields as [ | f fs IH ]; intros v x H; simpl in H.
  - now injection H.
  - change (walk v (f :: fs)) with (walk (walk_step v f) fs).
    destruct v; try discriminate. simpl. unfold dict_get_default.
    destruct (dict_get d (KStr f)) as [v' | ]; [now apply IH | discriminate].
Qed.

(** X10. A path previous.steps.<idx>.data.<fields> whose index is in
    range and whose fields all resolve in the referenced step's data
    puts the value found under [_from_previous] in the payload built
    from [input]. *)
Theorem reference_projects_field d base path i f fs idx j st data v :
  py_dict (py_or (dict_get_default d "input" VNone) (VDict [])) = inr base ->
  dict_get_default d "input_path" VNone = VStr path ->
  split_dot path = "previous" :: "steps" :: i :: "data" :: f :: fs ->
  int_of_string i = Some idx ->
  (0 <= idx)%Z ->
  nth_error (j_result j) (Z.to_nat idx)
    = Some (VDict [(KStr "status", st); (KStr "data", data)]) ->
  spec_lookup data (f :: fs) = Some v ->
  _resolve_input (VDict d) j = inr (dict_set base (KStr "_from_previous") v) /\
  dict_get (dict_set base (KStr "_from_previous") v) (KStr "_from_previous") = Some v.
Proof.
  intros Hbase Hpath Hsplit Hint Hpos Hnth Hlook.
  split; [ | apply dict_get_set_same ].
  assert (Htruthy : py_truthy (VStr path) = true).
  { destruct path; [discriminate Hsplit | reflexivity]. }
  assert (Hdata : py_or data (VDict []) = data).
  { destruct data as [ | | | | | [ | kv dd ] ]; try discriminate Hlook; reflexivity. }
  assert (Hlt : (Z.to_nat idx < length (j_result j))%nat).
  { apply nth_error_Some. rewrite Hnth. discriminate. }
  unfold _resolve_input. simpl py_get. unfold fbind at 1. rewrite Hbase.
  unfold fbind at 1. unfold fbind at 1. rewrite Hpath, Htruthy. cbv iota. simpl negb.
  cbv iota.
  rewrite (resolve_try_reference _ _ _ _ _ _ _ Hsplit Hint).
  replace (idx <? Z.of_nat (length (j_result j)))%Z with true
    by (symmetry; apply Z.ltb_lt; lia).
  unfold py_index.
  replace (idx <? 0)%Z with false by (symmetry; apply Z.ltb_ge; lia).
  replace (0 <=? idx)%Z with true by (symmetry; apply Z.leb_le; lia).
  replace (idx <? Z.of_nat (length (j_result j)))%Z with true
    by (symmetry; apply Z.ltb_lt; lia).
  simpl andb. cbv iota. rewrite Hnth.
  unfold fbind, py_get, py_truthy, dict_get_default.
  change (dict_get [(KStr "status", st); (KStr "data", data)] (KStr "data"))
    with (Some data).
  cbv iota beta. rewrite Hdata, (walk_hit _ _ _ Hlook). reflexivity.
Qed.

Lemma reference_projects_field_witness :
  let d := [(KStr "agent", VStr "extractor"); (KStr "input", VDict [(KStr "lang", VStr "en")]);
            (KStr "input_path", VStr "previous.steps.0.data.x.y")] in
  let j := MkJob (VStr "job-1") "running" 0 (VDict []) [] []
                 [success_entry (VDict [(KStr "x", VDict [(KStr "y", VInt 5)])])] None in
  _resolve_input (VDict d) j
    = inr (dict_set [(KStr "lang", VStr "en")] (KStr "_from_previous") (VInt 5)) /\
  dict_get (dict_set [(KStr "lang", VStr "en")] (KStr "_from_previous") (VInt 5))
           (KStr "_from_previous") = Some (VInt 5).
Proof.
  intros d j.
  apply (reference_projects_field d [(KStr "lang", VStr "en")] "previous.steps.0.data.x.y"
           "0" "x" ["y"] 0 j (VStr "success")
           (VDict [(KStr "x", VDict [(KStr "y", VInt 5)])]) (VInt 5)).
  - reflexivity.
  - reflexivity.
  - reflexivity.
  - reflexivity.
  - lia.
  - reflexivity.
  - reflexivity.
Defined.

(** X11. An [input_path] that is absent, falsy, not a string, or a
    string that does not split on dots into previous, steps, <idx>,
    data and at least one field is ignored: the payload is the one
    built from [input]. *)
Theorem unrecognised_path_is_ignored d base j :
  py_dict (py_or (dict_get_default d "input" VNone) (VDict [])) = inr base ->
  (forall path i f fs,
     dict_get_default d "input_path" VNone = VStr path ->
     split_dot path <> "previous" :: "steps" :: i :: "data" :: f :: fs) ->
  _resolve_input (VDict d) j = inr base.
Proof.
  intros Hbase Hform.
  destruct (resolve_input_cases d base j Hbase) as [H | (payload & Htry & _)]; [exact H | ].
  destruct (resolve_try_some _ _ _ _ Htry) as (path & i & f & fs & v & Hp & Hs & _).
  exfalso. exact (Hform path i f fs Hp Hs).
Qed.

Lemma unrecognised_path_is_ignored_witness :
  let d := [(KStr "agent", VStr "extractor"); (KStr "input", VDict [(KStr "lang", VStr "en")]);
            (KStr "input_path", VStr "previous.step.0.data.x")] in
  let j := MkJob (VStr "job-1") "running" 0 (VDict []) [] []
                 [success_entry (VDict [(KStr "x", VInt 5)])] None in
  _resolve_input (VDict d) j = inr [(KStr "lang", VStr "en")].
Proof.
  intros d j.
  apply (unrecognised_path_is_ignored d [(KStr "lang", VStr "en")] j).
  - reflexivity.
  - intros path i f fs Hp. injection Hp as <-. discriminate.
Defined.

(** X12. For a step dictionary whose [input] converts, resolution
    returns a payload and raises nothing, whatever the [input_path]
    and the job; the payload is the one built from [input], or that
    one with [_from_previous] set, so every other key of [input]
    keeps its value. *)
Theorem resolution_keeps_input_keys d base j :
  py_dict (py_or (dict_get_default d "input" VNone) (VDict [])) = inr base ->
  exists payload,
    _resolve_input (VDict d) j = inr payload /\
    (payload = base \/ exists v, payload = dict_set base (KStr "_from_previous") v) /\
    forall k, key_eqb (KStr "_from_previous") k = false ->
      dict_get payload k = dict_get base k.
Proof.
  intros Hbase.
  destruct (resolve_input_cases d base j Hbase) as [H | (payload & Htry & H)].
  - exists base. repeat split; auto.
  - destruct (resolve_try_some _ _ _ _ Htry) as (path & i & f & fs & v & _ & _ & ->).
    eexists. split; [exact H | ]. split; [right; eauto | ].
    intros k Hk. now apply dict_get_set_other.
Qed.

Lemma resolution_keeps_input_keys_witness :
  let d := [(KStr "agent", VStr "extractor"); (KStr "input", VDict [(KStr "lang", VStr "en")]);
            (KStr "input_path", VStr "previous.steps.0.data.x")] in
  let j := MkJob (VStr "job-1") "running" 0 (VDict []) [] []
                 [success_entry (VDict [(KStr "x", VInt 5)])] None in
  exists payload,
    _resolve_input (VDict d) j = inr payload /\
    (payload = [(KStr "lang", VStr "en")] \/
     exists v, payload = dict_set [(KStr "lang", VStr "en")] (KStr "_from_previous") v) /\
    forall k, key_eqb (KStr "_from_previous") k = false ->
      dict_get payload k = dict_get [(KStr "lang", VStr "en")] k.
Proof.
  intros d j.
  apply (resolution_keeps_input_keys d [(KStr "lang", VStr "en")] j).
  reflexivity.
Defined.

(** ** The adapter, the other cases *)



(** X14. An exception that does not derive from [Exception], raised
    by the agent's entry point with no timeout set or within it, is
    not converted: it leaves the adapter and, with it, the step
    executor, before any history entry is written for the attempt. *)
Theorem non_Exception_leaves_adapter d idx name a f payload r w e dt :
  step_agent d = VStr name ->
  dict_get (agents w) (KStr name) = Some a ->
  dispatch a = Some f ->
  retry_is d r -> (1 <= r)%Z ->
  _resolve_input (VDict d) (job w) = inr payload ->
  f (length (calls w)) (VDict payload) = Raises dt e ->
  exn_is_Exception e = false ->
  within (step_timeout d) dt = true ->
  exists w',
    _call_agent (VStr name) (VDict payload) (step_timeout d)
                (started (step_name idx d) (VStr name) 1 w) = Exc e w' /\
    _run_step idx (VDict d) w = Exc e w' /\
    j_agent_history (job w') = j_agent_history (job w) /\
    j_status (job w') = j_status (job w).
Proof.
  intros Hname Ha Hd Hr Hpos Hres Hf He Hin.
  assert (Hcall : exists w',
             _call_agent (VStr name) (VDict payload) (step_timeout d)
                         (started (step_name idx d) (VStr name) 1 w) = Exc e w').
  { unfold _call_agent, started, exec. simpl. rewrite Ha.
    unfold _invoke. rewrite Hd, Hf, He. unfold within in Hin.
    destruct (py_truthy (step_timeout d)); simpl in Hin.
    - destruct (py_number (step_timeout d)) as [ | t ]; [discriminate | ].
      rewrite Hin. eauto.
    - eauto. }
  destruct Hcall as (w' & Hcall). exists w'. split; [exact Hcall | ].
  pose proof (call_agent_frame (VStr name) (VDict payload) (step_timeout d)
                (started (step_name idx d) (VStr name) 1 w)) as F.
  rewrite Hcall in F. destruct F as (_ & Fj & _).
  rewrite (run_step_attempts _ _ _ _ Hr).
  destruct (Z.to_nat r) as [ | n ] eqn:En; [lia | ].
  rewrite attempts_unfold. cbv zeta. rewrite Hres, Hname, Hcall.
  rewrite Fj. repeat split.
Qed.

Lemma non_Exception_leaves_adapter_witness :
  let interrupt := MkExn "KeyboardInterrupt" false "" "" in
  let a := MkAgent None (Some (Plain (fun _ _ => Raises 0 interrupt))) in
  let d := [(KStr "agent", VStr "manual")] in
  let w := MkWorld [(KStr "manual", a)] (new_job (VStr "job-1") 0 (VDict [])) 0 [] [] in
  exists w',
    _call_agent (VStr "manual") (VDict []) (step_timeout d)
                (started (step_name 0 d) (VStr "manual") 1 w) = Exc interrupt w' /\
    _run_step 0 (VDict d) w = Exc interrupt w' /\
    j_agent_history (job w') = j_agent_history (job w) /\
    j_status (job w') = j_status (job w).
Proof.
  intros interrupt a d w.
  apply (non_Exception_leaves_adapter d 0 "manual" a (fun _ _ => Raises 0 interrupt)
           [] 1 w interrupt 0).
  - reflexivity.
  - reflexivity.
  - reflexivity.
  - reflexivity.
  - lia.
  - reflexivity.
  - reflexivity.
  - reflexivity.
  - reflexivity.
Defined.

(** * Properties of the synchronous workflow manager *)

Lemma manager_loop_general agents steps :
  forall i step_results r,
    loop_trace steps step_results r (WorkflowManager.loop agents i steps step_results r).
Proof.
  induction steps as [ | step rest IH ]; intros i step_results r.
  - unfold loop_trace. simpl. repeat split.
    + exists []. now rewrite app_nil_r.
    + exists []. rewrite app_nil_r. split; [reflexivity | simpl; lia].
    + exists []. now rewrite app_nil_r.
  - assert (Hstop : forall e ls,
              loop_trace (step :: rest) step_results r
                (WorkflowManager.Thrown e,
                 WorkflowManager.MkRunning
                   (WorkflowManager.MkJob
                      (WorkflowManager.id (WorkflowManager.r_job r))
                      (WorkflowManager.status (WorkflowManager.r_job r))
                      (WorkflowManager.payload (WorkflowManager.r_job r))
                      (WorkflowManager.logs (WorkflowManager.r_job r) ++ ls)
                      (WorkflowManager.result (WorkflowManager.r_job r)))
                   (WorkflowManager.r_clock r) (WorkflowManager.r_calls r))).
    { intros e ls. unfold loop_trace. simpl. repeat split.
      - now exists ls.
      - exists []. rewrite app_nil_r. split; [reflexivity | simpl; lia]. }
    unfold WorkflowManager.loop; fold WorkflowManager.loop.
    destruct (py_get step "agent" VNone) as [e | agent_name].
    { destruct r as [[? ? ? ? ?] ? ?]. specialize (Hstop e []). simpl in Hstop.
      rewrite app_nil_r in Hstop. exact Hstop. }
    destruct (py_get step "input" (VDict [])) as [e | inp].
    { destruct r as [[? ? ? ? ?] ? ?]. specialize (Hstop e []). simpl in Hstop.
      rewrite app_nil_r in Hstop. exact Hstop. }
    cbv zeta.
    destruct (hashable agent_name) as [e | k]; [apply Hstop | ].
    destruct (dict_get agents k) as [run | ].
    2: { unfold loop_trace. simpl. repeat split.
         - rewrite <- app_assoc. eauto.
         - exists []. rewrite app_nil_r. split; [reflexivity | simpl; lia]. }
    destruct (run _ inp) as [dt res | dt e | ].
    + destruct (py_get res "status" VNone) as [e | st].
      * unfold loop_trace. simpl. repeat split; eauto.
        eexists. split; [reflexivity | simpl; lia].
      * match goal with |- loop_trace _ _ _ (WorkflowManager.loop _ ?i' _ ?rs' ?r') =>
          pose proof (IH i' rs' r') as G;
          destruct (WorkflowManager.loop agents i' rest rs' r') as [o r''] eqn:E
        end.
        unfold loop_trace in *. simpl in G |- *.
        destruct G as (G1 & G2 & G3 & (ls & G4) & (cs & G5 & G6) & G7).
        rewrite G1, G2, G3, G4, G5, <- !app_assoc. repeat split; eauto.
        -- eexists. split; [reflexivity | simpl; lia].
        -- destruct o; auto. destruct G7 as (S1 & new & -> & Hl).
           split; [exact S1 | ]. exists (res :: new).
           rewrite <- app_assoc. split; [reflexivity | simpl; lia].
    + unfold loop_trace. simpl. repeat split; eauto.
      eexists. split; [reflexivity | simpl; lia].
    + unfold loop_trace. simpl. repeat split; eauto.
      eexists. split; [reflexivity | simpl; lia].
Qed.

Lemma manager_attempt_general agents uuid payload clk cs :
  let r0 := WorkflowManager.MkRunning
              (WorkflowManager.MkJob uuid "running" payload [] None) clk cs in
  let o := WorkflowManager.attempt agents r0 in
  WorkflowManager.id (WorkflowManager.r_job (snd o)) = uuid /\
  WorkflowManager.result (WorkflowManager.r_job (snd o)) = None /\
  match fst o with
  | WorkflowManager.Broken =>
      WorkflowManager.status (WorkflowManager.r_job (snd o)) = "failed"
  | _ => WorkflowManager.status (WorkflowManager.r_job (snd o)) = "running"
  end.
Proof.
  intros r0 o. subst o. unfold WorkflowManager.attempt.
  destruct (py_get _ "workflow" _) as [e | steps]; [repeat split | ].
  destruct (py_iter steps) as [e | l]; [repeat split | ].
  pose proof (manager_loop_general agents l 0 [] r0) as G.
  destruct (WorkflowManager.loop agents 0 l [] r0) as [o r'].
  unfold loop_trace in G. simpl in G |- *.
  destruct G as (G1 & G2 & G3 & _ & _ & G7).
  repeat split; auto. destruct o; intuition.
Qed.

Lemma manager_job_is_terminal_aux payload uuid self :
  match WorkflowManager.start_workflow payload uuid self with
  | (WorkflowManager.Returns_job j, self') =>
      WorkflowManager.get_job self' uuid = Some j /\
      WorkflowManager.id j = uuid /\
      ((WorkflowManager.status j = "finished" /\ WorkflowManager.result j <> None) \/
       (WorkflowManager.status j = "failed" /\ WorkflowManager.result j = None))
  | (WorkflowManager.Propagates e, self') =>
      exn_is_Exception e = false /\
      exists j, WorkflowManager.get_job self' uuid = Some j /\
                WorkflowManager.status j = "running" /\ WorkflowManager.result j = None
  | (WorkflowManager.Never_returns, self') =>
      exists j, WorkflowManager.get_job self' uuid = Some j /\
                WorkflowManager.status j = "running" /\ WorkflowManager.result j = None
  end.
Proof.
  unfold WorkflowManager.start_workflow.
  pose proof (manager_attempt_general (WorkflowManager._agents self) uuid payload
                (WorkflowManager.clock self) (WorkflowManager.calls self)) as G.
  cbv zeta in G.
  destruct (WorkflowManager.attempt _ _) as [o r]. simpl in G.
  destruct G as (Gid & Gres & Gst).
  destruct o as [rs | | e | ].
  - unfold WorkflowManager.get_job, WorkflowManager.store. simpl. rewrite Gid.
    split; [apply dict_get_set_same | ]. split; [reflexivity | ].
    left. split; [reflexivity | discriminate].
  - unfold WorkflowManager.get_job, WorkflowManager.store. simpl. rewrite Gid.
    split; [apply dict_get_set_same | ]. auto.
  - destruct (exn_is_Exception e) eqn:He.
    + unfold WorkflowManager.get_job, WorkflowManager.store. simpl. rewrite Gid.
      split; [apply dict_get_set_same | ]. auto.
    + split; [exact He | ]. exists (WorkflowManager.r_job r).
      unfold WorkflowManager.get_job, WorkflowManager.store. simpl. rewrite Gid.
      split; [apply dict_get_set_same | ]. auto.
  - exists (WorkflowManager.r_job r).
    unfold WorkflowManager.get_job, WorkflowManager.store. simpl. rewrite Gid.
    split; [apply dict_get_set_same | ]. auto.
Qed.

(** X15. However the payload is shaped and whatever the agents do,
    when [WorkflowManager.start_workflow] returns, the job it returns
    is the one [get_job] finds under the generated identifier, and it
    is either "finished" with a result list or "failed" with result
    None, never "running".  Only an exception that is not an
    [Exception], or an agent that never returns, keeps it from
    returning, and the registered job is then left "running" with
    result None. *)
Theorem manager_job_is_terminal payload uuid self :
  match WorkflowManager.start_workflow payload uuid self with
  | (WorkflowManager.Returns_job j, self') =>
      WorkflowManager.get_job self' uuid = Some j /\
      WorkflowManager.id j = uuid /\
      ((WorkflowManager.status j = "finished" /\ WorkflowManager.result j <> None) \/
       (WorkflowManager.status j = "failed" /\ WorkflowManager.result j = None))
  | (WorkflowManager.Propagates e, self') =>
      exn_is_Exception e = false /\
      exists j, WorkflowManager.get_job self' uuid = Some j /\
                WorkflowManager.status j = "running" /\ WorkflowManager.result j = None
  | (WorkflowManager.Never_returns, self') =>
      exists j, WorkflowManager.get_job self' uuid = Some j /\
                WorkflowManager.status j = "running" /\ WorkflowManager.result j = None
  end.
Proof. exact (manager_job_is_terminal_aux payload uuid self). Qed.

(** X16. The reply of POST /run-workflow always says "started": when
    it is produced, the job it names can be fetched with
    GET /job/<id> and is already "finished" or "failed". *)
Theorem started_reply_names_a_terminal_job payload uuid self :
  match WorkflowManager.run_workflow payload uuid self with
  | (Some reply, self') =>
      reply = [("job_id", uuid); ("status", "started")] /\
      exists j, WorkflowManager.route_get_job self' uuid = inr j /\
                (WorkflowManager.status j = "finished" \/
                 WorkflowManager.status j = "failed")
  | (None, _) => True
  end.
Proof.
  unfold WorkflowManager.run_workflow, WorkflowManager.route_get_job.
  pose proof (manager_job_is_terminal_aux payload uuid self) as G.
  destruct (WorkflowManager.start_workflow payload uuid self) as [[j | e | ] self']; auto.
  destruct G as (Hg & Hid & Hst). rewrite Hg, Hid.
  split; [reflexivity | ]. exists j. split; [reflexivity | ]. intuition.
Qed.

(** A prefix of steps whose agents all answer: the loop goes through
    it, collecting what the agents returned and nothing else. *)
Lemma manager_loop_answered agents pre :
  Forall (answered_step agents) pre ->
  forall i step_results r,
    exists new r',
      (forall rest,
         WorkflowManager.loop agents i (pre ++ rest) step_results r =
         WorkflowManager.loop agents (i + length pre) rest (step_results ++ new) r') /\
      Forall2 (returned_for agents) pre new /\
      WorkflowManager.id (WorkflowManager.r_job r') = WorkflowManager.id (WorkflowManager.r_job r) /\
      WorkflowManager.status (WorkflowManager.r_job r')
        = WorkflowManager.status (WorkflowManager.r_job r) /\
      WorkflowManager.result (WorkflowManager.r_job r')
        = WorkflowManager.result (WorkflowManager.r_job r) /\
      length (WorkflowManager.r_calls r') = (length (WorkflowManager.r_calls r) + length pre)%nat.
Proof.
  induction 1 as [ | step pre Hstep Hpre IH ]; intros i step_results r.
  - exists [], r. rewrite app_nil_r, Nat.add_0_r. simpl.
    repeat split; auto.
  - destruct Hstep as (d & k & run & -> & Hk & Hrun & Hans).
    set (inp := dict_get_default d "input" (VDict [])).
    set (r1 := WorkflowManager.append_log "info"
                 (WorkflowManager.StartingStep (i + 1) (dict_get_default d "agent" VNone)) r).
    destruct (Hans (length (WorkflowManager.r_calls r1)) inp) as (dt & res & Hres).
    set (r3 := WorkflowManager.append_log "info"
                 (WorkflowManager.StepResult (i + 1) (dict_get_default res "status" VNone))
                 (WorkflowManager.called k inp dt r1)).
    destruct (IH (S i) (step_results ++ [VDict res]) r3)
      as (new & r' & Hloop & Hall & Hid & Hst & Hrs & Hcalls).
    exists (VDict res :: new), r'. split; [ | split ].
    + intros rest. rewrite <- app_comm_cons.
      unfold WorkflowManager.loop; fold WorkflowManager.loop.
      simpl py_get. cbv iota beta zeta. rewrite Hk. cbv iota beta. rewrite Hrun.
      fold inp. fold r1. rewrite Hres. simpl py_get. cbv iota beta.
      fold r3. rewrite Hloop. rewrite <- app_assoc. simpl. f_equal. lia.
    + constructor; [ | exact Hall ].
      exists d, k, run, (length (WorkflowManager.r_calls r1)), inp, dt. auto.
    + subst r3 r1. simpl in *. rewrite Hid, Hst, Hrs, Hcalls.
      rewrite length_app. simpl. repeat split; lia.
Qed.



(** X18. At the first step whose agent name is not registered, after
    steps whose agents answered, the manager logs the error, marks the
    job "failed", leaves its result None (the answers collected so
    far are dropped) and returns: no agent is called for that step or
    any later one. *)
Theorem manager_stops_at_unknown_agent d pre step post k uuid self :
  dict_get_default d "workflow" (VList []) = VList (pre ++ VDict step :: post) ->
  Forall (answered_step (WorkflowManager._agents self)) pre ->
  hashable (dict_get_default step "agent" VNone) = inr k ->
  dict_get (WorkflowManager._agents self) k = None ->
  exists j self' ls t,
    WorkflowManager.start_workflow (VDict d) uuid self
      = (WorkflowManager.Returns_job j, self') /\
    WorkflowManager.status j = "failed" /\
    WorkflowManager.result j = None /\
    WorkflowManager.logs j
      = ls ++ [WorkflowManager.MkLine t "error"
                 (WorkflowManager.AgentNotFound (dict_get_default step "agent" VNone))] /\
    length (WorkflowManager.calls self')
      = (length (WorkflowManager.calls self) + length pre)%nat.
Proof.
  intros Hsteps Hall Hk Hnone.
  set (r0 := WorkflowManager.MkRunning
               (WorkflowManager.MkJob uuid "running" (VDict d) [] None)
               (WorkflowManager.clock self) (WorkflowManager.calls self)).
  destruct (manager_loop_answered _ _ Hall 0%nat [] r0)
    as (new & r' & Hloop & _ & _ & _ & Hres & Hcalls).
  unfold WorkflowManager.start_workflow, WorkflowManager.attempt.
  fold r0. simpl py_get. rewrite Hsteps. simpl py_iter. cbv iota beta.
  rewrite Hloop.
  unfold WorkflowManager.loop. simpl py_get. cbv iota beta zeta.
  rewrite Hk. cbv iota beta. rewrite Hnone.
  eexists _, _, _, _. split; [reflexivity | ]. simpl. repeat split; auto.
Qed.

Lemma manager_stops_at_unknown_agent_witness :
  let self := WorkflowManager.MkManager []
                [(KStr "browser", fun _ _ => Returns 1 Sample.page)] 0 [] in
  let d := [(KStr "workflow",
             VList ([VDict [(KStr "agent", VStr "browser")]] ++
                    VDict [(KStr "agent", VStr "extractor")] ::
                    [VDict [(KStr "agent", VStr "browser")]]))] in
  exists j self' ls t,
    WorkflowManager.start_workflow (VDict d) "id-1" self
      = (WorkflowManager.Returns_job j, self') /\
    WorkflowManager.status j = "failed" /\
    WorkflowManager.result j = None /\
    WorkflowManager.logs j
      = ls ++ [WorkflowManager.MkLine t "error"
                 (WorkflowManager.AgentNotFound
                    (dict_get_default [(KStr "agent", VStr "extractor")] "agent" VNone))] /\
    length (WorkflowManager.calls self')
      = (length (WorkflowManager.calls self) + 1)%nat.
Proof.
  intros self d.
  apply (manager_stops_at_unknown_agent d [VDict [(KStr "agent", VStr "browser")]]
           [(KStr "agent", VStr "extractor")] [VDict [(KStr "agent", VStr "browser")]]
           (KStr "extractor") "id-1" self).
  - reflexivity.
  - repeat constructor.
    eexists _, _, _. split; [reflexivity | ]. split; [reflexivity | ].
    split; [reflexivity | ]. intros n inp. eexists _, _. reflexivity.
  - reflexivity.
  - reflexivity.
Defined.

(** X19. When, after steps whose agents answered, the agent of a step
    raises an [Exception], or returns a value that is not a
    dictionary so that reading its status raises one, the manager
    does not raise: it returns the job marked "failed" with result
    None and the exception's message as last log line. *)
Theorem manager_records_exception d pre step post k run e uuid self :
  dict_get_default d "workflow" (VList []) = VList (pre ++ VDict step :: post) ->
  Forall (answered_step (WorkflowManager._agents self)) pre ->
  hashable (dict_get_default step "agent" VNone) = inr k ->
  dict_get (WorkflowManager._agents self) k = Some run ->
  (forall n inp,
     (exists dt, run n inp = Raises dt e) \/
     (exists dt res, run n inp = Returns dt res /\ py_get res "status" VNone = inl e)) ->
  exn_is_Exception e = true ->
  exists j self' ls t,
    WorkflowManager.start_workflow (VDict d) uuid self
      = (WorkflowManager.Returns_job j, self') /\
    WorkflowManager.status j = "failed" /\
    WorkflowManager.result j = None /\
    WorkflowManager.logs j
      = ls ++ [WorkflowManager.MkLine t "error" (WorkflowManager.Failure (exn_msg e))].
Proof.
  intros Hsteps Hall Hk Hrun Hthrows He.
  set (r0 := WorkflowManager.MkRunning
               (WorkflowManager.MkJob uuid "running" (VDict d) [] None)
               (WorkflowManager.clock self) (WorkflowManager.calls self)).
  destruct (manager_loop_answered _ _ Hall 0%nat [] r0)
    as (new & r' & Hloop & _ & _ & _ & Hres & Hcalls).
  unfold WorkflowManager.start_workflow, WorkflowManager.attempt.
  fold r0. simpl py_get. rewrite Hsteps. simpl py_iter. cbv iota beta.
  rewrite Hloop.
  unfold WorkflowManager.loop. simpl py_get. cbv iota beta zeta.
  rewrite Hk. cbv iota beta. rewrite Hrun.
  match goal with |- context [run ?n ?inp] =>
    destruct (Hthrows n inp) as [(dt & Hr) | (dt & res & Hr & Hst)]; rewrite Hr
  end.
  - rewrite He. eexists _, _, _, _. split; [reflexivity | ]. simpl. repeat split; auto.
  - rewrite Hst, He. eexists _, _, _, _. split; [reflexivity | ]. simpl.
    repeat split; auto.
Qed.

Lemma manager_records_exception_witness :
  let self := WorkflowManager.MkManager []
                [(KStr "browser", fun _ _ => Returns 1 (VStr "oops"))] 0 [] in
  let d := [(KStr "workflow", VList ([] ++ VDict [(KStr "agent", VStr "browser")] :: []))] in
  exists j self' ls t,
    WorkflowManager.start_workflow (VDict d) "id-1" self
      = (WorkflowManager.Returns_job j, self') /\
    WorkflowManager.status j = "failed" /\
    WorkflowManager.result j = None /\
    WorkflowManager.logs j
      = ls ++ [WorkflowManager.MkLine t "error"
                 (WorkflowManager.Failure
                    (exn_msg (AttributeError "'str' object has no attribute 'get'")))].
Proof.
  intros self d.
  apply (manager_records_exception d [] [(KStr "agent", VStr "browser")] []
           (KStr "browser") (fun _ _ => Returns 1 (VStr "oops"))
           (AttributeError "'str' object has no attribute 'get'") "id-1" self).
  - reflexivity.
  - constructor.
  - reflexivity.
  - reflexivity.
  - intros n inp. right. eexists _, _. split; reflexivity.
  - reflexivity.
Defined.

(** * Properties of the extractor's text cleaning *)

Lemma squeeze_cons c a rest :
  ExtractorAgent.squeeze c (String a rest) =
    if Ascii.eqb a c && starts_with c rest
    then ExtractorAgent.squeeze c rest
    else String a (ExtractorAgent.squeeze c rest).
Proof.
  simpl. destruct (Ascii.eqb a c); [ | reflexivity ].
  destruct rest as [ | b rest ]; [reflexivity | ]. simpl.
  destruct (Ascii.eqb b c); reflexivity.
Qed.

(** Squeezing keeps the first character. *)
Lemma squeeze_starts c c' s :
  starts_with c' (ExtractorAgent.squeeze c s) = starts_with c' s.
Proof.
  induction s as [ | a rest IH ]; [reflexivity | ].
  rewrite squeeze_cons.
  destruct (Ascii.eqb a c && starts_with c rest) eqn:E; [ | reflexivity ].
  rewrite IH. apply andb_prop in E. destruct E as (Ea & Eb).
  apply Ascii.eqb_eq in Ea. subst a.
  destruct rest as [ | b rest ]; [discriminate | ]. simpl in *.
  apply Ascii.eqb_eq in Eb. now subst b.
Qed.

(** After squeezing [c], no two [c] are adjacent. *)
Lemma squeeze_not_doubled c s : doubled c (ExtractorAgent.squeeze c s) = false.
Proof.
  induction s as [ | a rest IH ]; [reflexivity | ].
  rewrite squeeze_cons.
  destruct (Ascii.eqb a c && starts_with c rest) eqn:E; [exact IH | ].
  cbn [doubled]. rewrite squeeze_starts, E, IH. reflexivity.
Qed.

(** Squeezing one character brings no two of another together. *)
Lemma squeeze_keeps_not_doubled c c' s :
  doubled c s = false -> doubled c (ExtractorAgent.squeeze c' s) = false.
Proof.
  induction s as [ | a rest IH ]; [reflexivity | ].
  cbn [doubled]. intros H. apply orb_false_elim in H. destruct H as (H1 & H2).
  rewrite squeeze_cons.
  destruct (Ascii.eqb a c' && starts_with c' rest); [now apply IH | ].
  cbn [doubled]. rewrite squeeze_starts, H1, (IH H2). reflexivity.
Qed.

(** A string without two adjacent [c] is left as it is. *)
Lemma squeeze_fixed c s : doubled c s = false -> ExtractorAgent.squeeze c s = s.
Proof.
  induction s as [ | a rest IH ]; [reflexivity | ].
  cbn [doubled]. intros H. apply orb_false_elim in H. destruct H as (H1 & H2).
  rewrite squeeze_cons, H1, (IH H2). reflexivity.
Qed.

Lemma squeeze_every p c s :
  every p s = true -> every p (ExtractorAgent.squeeze c s) = true.
Proof.
  induction s as [ | a rest IH ]; [reflexivity | ].
  cbn [every]. intros H. apply andb_prop in H. destruct H as (H1 & H2).
  rewrite squeeze_cons.
  destruct (Ascii.eqb a c && starts_with c rest); [now apply IH | ].
  cbn [every]. now rewrite H1, IH.
Qed.

Lemma ascii_only_every s : every ExtractorAgent.is_ascii (ExtractorAgent.ascii_only s) = true.
Proof.
  induction s as [ | a rest IH ]; [reflexivity | ]. simpl.
  destruct (ExtractorAgent.is_ascii a) eqn:E; [ | exact IH ].
  cbn [every]. now rewrite E, IH.
Qed.

Lemma ascii_only_fixed s :
  every ExtractorAgent.is_ascii s = true -> ExtractorAgent.ascii_only s = s.
Proof.
  induction s as [ | a rest IH ]; [reflexivity | ].
  cbn [every]. intros H. apply andb_prop in H. destruct H as (H1 & H2).
  simpl. now rewrite H1, IH.
Qed.

Lemma lstrip_every p s : every p s = true -> every p (lstrip s) = true.
Proof.
  induction s as [ | a rest IH ]; [reflexivity | ].
  intros H. simpl. destruct (is_space a); [ | exact H ].
  cbn [every] in H. apply andb_prop in H. now apply IH.
Qed.

Lemma rstrip_cons a rest :
  rstrip (String a rest) =
    match rstrip rest with
    | EmptyString => if is_space a then EmptyString else String a EmptyString
    | r => String a r
    end.
Proof. reflexivity. Qed.

Lemma rstrip_every p s : every p s = true -> every p (rstrip s) = true.
Proof.
  induction s as [ | a rest IH ]; [reflexivity | ].
  cbn [every]. intros H. apply andb_prop in H. destruct H as (H1 & H2).
  rewrite rstrip_cons. specialize (IH H2).
  destruct (rstrip rest) as [ | b r ].
  - destruct (is_space a); [reflexivity | ]. cbn [every]. now rewrite H1.
  - cbn [every] in *. now rewrite H1, IH.
Qed.

Lemma lstrip_clean_head s : clean_head (lstrip s) = true.
Proof.
  induction s as [ | a rest IH ]; [reflexivity | ]. simpl.
  destruct (is_space a) eqn:E; [exact IH | ]. simpl. now rewrite E.
Qed.

Lemma lstrip_fixed s : clean_head s = true -> lstrip s = s.
Proof.
  destruct s as [ | a rest ]; [reflexivity | ]. simpl. intros H.
  apply negb_true_iff in H. now rewrite H.
Qed.

Lemma rstrip_clean_head s : clean_head s = true -> clean_head (rstrip s) = true.
Proof.
  destruct s as [ | a rest ]; [reflexivity | ]. intros H.
  rewrite rstrip_cons. cbn [clean_head] in H. destruct (rstrip rest).
  - apply negb_true_iff in H. rewrite H. cbn [clean_head]. now rewrite H.
  - exact H.
Qed.

Lemma rstrip_idempotent s : rstrip (rstrip s) = rstrip s.
Proof.
  induction s as [ | a rest IH ]; [reflexivity | ].
  rewrite rstrip_cons. destruct (rstrip rest) as [ | b r ] eqn:E.
  - destruct (is_space a) eqn:Ea; [reflexivity | ].
    rewrite rstrip_cons. simpl. now rewrite Ea.
  - rewrite rstrip_cons, IH. reflexivity.
Qed.

Lemma rstrip_starts c s :
  rstrip s <> EmptyString -> starts_with c (rstrip s) = starts_with c s.
Proof.
  destruct s as [ | a rest ]; [reflexivity | ]. rewrite rstrip_cons.
  destruct (rstrip rest); [ | reflexivity ].
  destruct (is_space a); [contradiction | reflexivity].
Qed.

Lemma lstrip_not_doubled c s : doubled c s = false -> doubled c (lstrip s) = false.
Proof.
  induction s as [ | a rest IH ]; [reflexivity | ].
  intros H. simpl lstrip. destruct (is_space a); [ | exact H ].
  cbn [doubled] in H. apply orb_false_elim in H. now apply IH.
Qed.

Lemma rstrip_not_doubled c s : doubled c s = false -> doubled c (rstrip s) = false.
Proof.
  induction s as [ | a rest IH ]; [reflexivity | ].
  cbn [doubled]. intros H. apply orb_false_elim in H. destruct H as (H1 & H2).
  rewrite rstrip_cons. specialize (IH H2).
  destruct (rstrip rest) as [ | b r ] eqn:E.
  - destruct (is_space a); [reflexivity | ]. cbn [doubled starts_with].
    now rewrite andb_false_r.
  - change (doubled c (String a (String b r)))
      with ((Ascii.eqb a c && starts_with c (String b r)) || doubled c (String b r)).
    rewrite IH, orb_false_r, <- E.
    rewrite rstrip_starts by (rewrite E; discriminate). exact H1.
Qed.

(** X20. Whatever the text, [clean_text] returns only ASCII characters
    and a string that neither begins nor ends with white space. *)
Theorem clean_text_is_ascii_and_stripped text :
  every ExtractorAgent.is_ascii (ExtractorAgent.clean_text text) = true /\
  clean_head (ExtractorAgent.clean_text text) = true /\
  rstrip (ExtractorAgent.clean_text text) = ExtractorAgent.clean_text text /\
  lstrip (ExtractorAgent.clean_text text) = ExtractorAgent.clean_text text.
Proof.
  unfold ExtractorAgent.clean_text, ExtractorAgent.strip. cbv zeta.
  assert (H : clean_head (rstrip (lstrip (ExtractorAgent.ascii_only
                (ExtractorAgent.squeeze ExtractorAgent.newline
                   (ExtractorAgent.squeeze ExtractorAgent.space text))))) = true)
    by apply rstrip_clean_head, lstrip_clean_head.
  split; [apply rstrip_every, lstrip_every, ascii_only_every | ].
  split; [exact H | ].
  split; [apply rstrip_idempotent | now apply lstrip_fixed].
Qed.

Lemma clean_text_ascii_stages text :
  every ExtractorAgent.is_ascii text = true ->
  ExtractorAgent.clean_text text =
    rstrip (lstrip (ExtractorAgent.squeeze ExtractorAgent.newline
                      (ExtractorAgent.squeeze ExtractorAgent.space text))).
Proof.
  intros H. unfold ExtractorAgent.clean_text, ExtractorAgent.strip. cbv zeta.
  rewrite ascii_only_fixed; [reflexivity | ].
  now apply squeeze_every, squeeze_every.
Qed.

Lemma clean_text_not_doubled text :
  every ExtractorAgent.is_ascii text = true ->
  doubled ExtractorAgent.space (ExtractorAgent.clean_text text) = false /\
  doubled ExtractorAgent.newline (ExtractorAgent.clean_text text) = false.
Proof.
  intros H. rewrite (clean_text_ascii_stages _ H). split.
  - apply rstrip_not_doubled, lstrip_not_doubled, squeeze_keeps_not_doubled,
      squeeze_not_doubled.
  - apply rstrip_not_doubled, lstrip_not_doubled, squeeze_not_doubled.
Qed.

(** X21. On a text of ASCII characters, [clean_text] leaves no two
    spaces in a row and no two newlines in a row.  (Characters outside
    ASCII are dropped after the runs are squeezed, which can bring two
    spaces together.) *)
Theorem clean_text_squeezes_ascii_text text :
  every ExtractorAgent.is_ascii text = true ->
  doubled ExtractorAgent.space (ExtractorAgent.clean_text text) = false /\
  doubled ExtractorAgent.newline (ExtractorAgent.clean_text text) = false.
Proof. exact (clean_text_not_doubled text). Qed.

Lemma clean_text_squeezes_ascii_text_witness :
  doubled ExtractorAgent.space (ExtractorAgent.clean_text "  Title   of  the page  ") = false /\
  doubled ExtractorAgent.newline (ExtractorAgent.clean_text "  Title   of  the page  ") = false.
Proof.
  apply (clean_text_squeezes_ascii_text "  Title   of  the page  ").
  reflexivity.
Defined.

(** X22. Cleaning twice is cleaning once, for a text of ASCII
    characters: [clean_text] leaves its own output unchanged. *)
Theorem clean_text_idempotent_on_ascii text :
  every ExtractorAgent.is_ascii text = true ->
  ExtractorAgent.clean_text (ExtractorAgent.clean_text text) = ExtractorAgent.clean_text text.
Proof.
  intros H.
  destruct (clean_text_not_doubled text H) as (Hs & Hn).
  assert (Ha : every ExtractorAgent.is_ascii (ExtractorAgent.clean_text text) = true).
  { rewrite (clean_text_ascii_stages _ H).
    now apply rstrip_every, lstrip_every, squeeze_every, squeeze_every. }
  assert (Hh : clean_head (ExtractorAgent.clean_text text) = true).
  { rewrite (clean_text_ascii_stages _ H). apply rstrip_clean_head, lstrip_clean_head. }
  assert (Hr : rstrip (ExtractorAgent.clean_text text) = ExtractorAgent.clean_text text).
  { rewrite (clean_text_ascii_stages _ H). apply rstrip_idempotent. }
  rewrite (clean_text_ascii_stages _ Ha).
  rewrite (squeeze_fixed _ _ Hs), (squeeze_fixed _ _ Hn), (lstrip_fixed _ Hh).
  exact Hr.
Qed.

Lemma clean_text_idempotent_on_ascii_witness :
  ExtractorAgent.clean_text (ExtractorAgent.clean_text "  Title   of  the page  ")
    = ExtractorAgent.clean_text "  Title   of  the page  ".
Proof.
  apply (clean_text_idempotent_on_ascii "  Title   of  the page  ").
  reflexivity.
Defined.

(** * Retries that end well *)



